(** * utils/memory.hpp: ownership wrappers over an external release policy

    A shallow embedding of [utils::unique_handle],
    [utils::xx_impl::generic_smart_ptr], [utils::generic_unique_ptr] and
    [utils::generic_shared_ptr].

    Wrapper objects live in a store indexed by their own address, so that
    two references to one object ([a = a], [a = std::move(a)]) alias.  Every
    member function is a computation over that store; a call of a policy
    function is appended to a log together with the store as it is at the
    moment of the call, which is what code entered from the policy would
    observe. *)

From Stdlib Require Import ZArith List Lia.
From stdpp Require Import base option gmap list.

Local Open Scope Z_scope.

(** ** Data *)

(** The address of a wrapper object. *)
Abbreviation loc := positive (only parsing).

(** The single field of a wrapper ([_obj] of [unique_handle], [_p] of
    [generic_smart_ptr]): a scalar handle, or the address held by a raw
    pointer. *)
Abbreviation store := (gmap positive Z) (only parsing).

(** [nullptr]: the null address. *)
Definition nullptr : Z := 0.

(** The policy functions a wrapper can call. *)
Inductive call : Type :=
  | Release (v : Z)
  | AddRef (v : Z).

(** One call of the policy, with the store at the moment of the call. *)
Record event : Type := Event { ev_call : call; ev_view : gmap positive Z }.

(** A policy function either returns or throws. *)
Inductive completion : Type := Normal | Thrown.

(** The store of wrapper objects, the calls made so far, and the state [E]
    that the policy keeps outside the wrappers (reference counts, open
    descriptors). *)
Record machine (E : Type) : Type := Machine {
  heap : gmap positive Z;
  log : list event;
  ext : E
}.
Arguments Machine {E} _ _ _.
Arguments heap {E} _.
Arguments log {E} _.
Arguments ext {E} _.

(** What running a member function yields: a value, an exception in flight,
    or undefined behaviour (an object used outside its lifetime). *)
Inductive outcome (E A : Type) : Type :=
  | Returns (a : A) (m : machine E)
  | Throws (m : machine E)
  | Undefined.
Arguments Returns {E A} _ _.
Arguments Throws {E A} _.
Arguments Undefined {E A}.

Definition M (E A : Type) : Type := machine E -> outcome E A.

Definition ret {E A} (a : A) : M E A := fun m => Returns a m.

Definition bind {E A B} (c : M E A) (f : A -> M E B) : M E B :=
  fun m =>
    match c m with
    | Returns a m' => f a m'
    | Throws m' => Throws m'
    | Undefined => Undefined
    end.

Notation "'let*' x := c 'in' k" := (bind c (fun x => k))
  (at level 10, x name, c at level 100, k at level 200, only parsing).
Notation "'do*' c 'in' k" := (bind c (fun _ => k))
  (at level 10, c at level 100, k at level 200, only parsing).

(** Read the field of the object at [l]. *)
Definition load {E} (l : loc) : M E Z :=
  fun m =>
    match heap m !! l with
    | Some v => Returns v m
    | None => Undefined
    end.

(** Write the field of the object at [l]. *)
Definition write {E} (l : loc) (v : Z) : M E unit :=
  fun m =>
    match heap m !! l with
    | Some _ => Returns tt (Machine (<[l := v]> (heap m)) (log m) (ext m))
    | None => Undefined
    end.

(** Begin the lifetime of a new object whose field is initialised to [v]. *)
Definition alloc {E} (v : Z) : M E loc :=
  fun m =>
    let l := fresh (dom (heap m)) in
    Returns l (Machine (<[l := v]> (heap m)) (log m) (ext m)).

(** End the lifetime of the object at [l]. *)
Definition free {E} (l : loc) : M E unit :=
  fun m =>
    match heap m !! l with
    | Some _ => Returns tt (Machine (delete l (heap m)) (log m) (ext m))
    | None => Undefined
    end.

(** Call a policy function: log it with the current store, run it on the
    external state. *)
Definition invoke {E} (c : call) (f : E -> completion * E) : M E unit :=
  fun m =>
    let m' := Machine (heap m) (log m ++ [Event c (heap m)]) (snd (f (ext m))) in
    match fst (f (ext m)) with
    | Normal => Returns tt m'
    | Thrown => Throws m'
    end.

(** A constructor body that exits by an exception: the already constructed
    base subobject at [l] is destroyed by [cleanup] before the exception
    propagates. *)
Definition unwinding {E A} (cleanup : M E unit) (body : M E A) : M E A :=
  fun m =>
    match body m with
    | Throws m' =>
        match cleanup m' with
        | Returns _ m'' => Throws m''
        | Throws m'' => Throws m''
        | Undefined => Undefined
        end
    | r => r
    end.

(** The calls of a log, without the views. *)
Definition calls (l : list event) : list call := map ev_call l.

Definition is_release (c : call) : bool :=
  match c with Release _ => true | AddRef _ => false end.
Definition is_add_ref (c : call) : bool :=
  match c with AddRef _ => true | Release _ => false end.

(** How many calls of a list satisfy [f]. *)
Fixpoint count (f : call -> bool) (l : list call) : nat :=
  match l with
  | [] => 0%nat
  | c :: l' => ((if f c then 1 else 0) + count f l')%nat
  end.

(** ** Policies *)

Module HandleDeleter.
(** [static const T null; static void release(T handle) noexcept;] *)
Class t (E : Type) : Type := {
  null : Z;
  release : Z -> E -> E
}.
End HandleDeleter.

Module GenericDeleter.
(** [static void release(T* ptr) noexcept; static void add_ref(T* ptr);
    static long use_count(T* ptr) noexcept;] *)
Class t (E : Type) : Type := {
  release : Z -> E -> E;
  add_ref : Z -> E -> completion * E;
  use_count : Z -> E -> Z
}.
End GenericDeleter.

(** A [noexcept] policy function always completes normally. *)
Definition noexcept {E} (f : E -> E) : E -> completion * E :=
  fun e => (Normal, f e).

(** ** [utils::unique_handle<HandleDeleter>] *)

Module unique_handle.
Section Members.
Context {E : Type} {HD : HandleDeleter.t E}.

Definition get (this : loc) : M E Z := load this.

Definition release (this : loc) : M E Z :=
  let* retval := load this in
  do* write this HandleDeleter.null in
  ret retval.

Definition reset (this : loc) (new_obj : Z) : M E unit :=
  let* old_obj := load this in
  do* write this new_obj in
  if negb (old_obj =? HandleDeleter.null)
  then invoke (Release old_obj) (noexcept (HandleDeleter.release old_obj))
  else ret tt.

(** [~unique_handle()], followed by the end of the object's lifetime. *)
Definition dtor (this : loc) : M E unit :=
  let* _obj := load this in
  do* (if negb (_obj =? HandleDeleter.null)
       then invoke (Release _obj) (noexcept (HandleDeleter.release _obj))
       else ret tt) in
  free this.

(** [unique_handle()] *)
Definition ctor_default : M E loc := alloc HandleDeleter.null.

(** [unique_handle(type obj)] *)
Definition ctor (obj : Z) : M E loc := alloc obj.

(** [unique_handle(unique_handle&& other)] *)
Definition move_ctor (other : loc) : M E loc :=
  let* other_obj := load other in
  let* this := alloc other_obj in
  do* write other HandleDeleter.null in
  ret this.

(** [operator=(unique_handle&& other)] *)
Definition move_assign (this other : loc) : M E loc :=
  let* new_obj := release other in
  do* reset this new_obj in
  ret this.

(** [operator=(std::nullptr_t)] *)
Definition assign_nullptr (this : loc) : M E loc :=
  do* reset this HandleDeleter.null in
  ret this.

Definition swap (this other : loc) : M E unit :=
  let* a := load this in
  let* b := load other in
  do* write this b in
  write other a.

Definition operator_bool (this : loc) : M E bool :=
  let* _obj := load this in
  ret (negb (_obj =? HandleDeleter.null)).

Definition operator_eq (a b : loc) : M E bool :=
  let* x := get a in let* y := get b in ret (x =? y).
Definition operator_ne (a b : loc) : M E bool :=
  let* x := get a in let* y := get b in ret (negb (x =? y)).
Definition operator_ge (a b : loc) : M E bool :=
  let* x := get a in let* y := get b in ret (x >=? y).
Definition operator_le (a b : loc) : M E bool :=
  let* x := get a in let* y := get b in ret (x <=? y).
Definition operator_gt (a b : loc) : M E bool :=
  let* x := get a in let* y := get b in ret (x >? y).
Definition operator_lt (a b : loc) : M E bool :=
  let* x := get a in let* y := get b in ret (x <? y).

(** [std::hash<unique_handle<HandleDeleter>>::operator()], over the
    standard library's hash [std_hash] of the handle type. *)
Definition hash (std_hash : Z -> Z) (x : loc) : M E Z :=
  let* v := get x in ret (std_hash v).

End Members.
End unique_handle.

(** ** [utils::xx_impl::generic_smart_ptr<T, GenericDeleter, Template>] *)

Module generic_smart_ptr.
Section Members.
Context {E : Type} {GD : GenericDeleter.t E}.

Definition get (this : loc) : M E Z := load this.

Definition operator_bool (this : loc) : M E bool :=
  let* _p := load this in
  ret (negb (_p =? nullptr)).

Definition release (this : loc) : M E Z :=
  let* retval := load this in
  do* write this nullptr in
  ret retval.

Definition reset (this : loc) (ptr : Z) : M E unit :=
  let* old_ptr := load this in
  do* write this ptr in
  if negb (old_ptr =? nullptr)
  then invoke (Release old_ptr) (noexcept (GenericDeleter.release old_ptr))
  else ret tt.

(** [~generic_smart_ptr()], followed by the end of the object's lifetime. *)
Definition dtor (this : loc) : M E unit :=
  let* _p := load this in
  do* (if negb (_p =? nullptr)
       then invoke (Release _p) (noexcept (GenericDeleter.release _p))
       else ret tt) in
  free this.

Definition swap (this other : loc) : M E unit :=
  let* a := load this in
  let* b := load other in
  do* write this b in
  write other a.

(** [operator=(Template<U, GenericDeleter>&& other)] *)
Definition move_assign (this other : loc) : M E loc :=
  let* ptr := release other in
  do* reset this ptr in
  ret this.

(** [operator=(std::nullptr_t)] *)
Definition assign_nullptr (this : loc) : M E loc :=
  do* reset this nullptr in
  ret this.

(** [generic_smart_ptr()] *)
Definition ctor_default : M E loc := alloc nullptr.

(** [generic_smart_ptr(U* ptr)] *)
Definition ctor (ptr : Z) : M E loc := alloc ptr.

(** [generic_smart_ptr(U&& other)] *)
Definition move_ctor (other : loc) : M E loc :=
  let* other_p := load other in
  let* this := alloc other_p in
  do* write other nullptr in
  ret this.

(** [operator==(const generic_smart_ptr&, std::nullptr_t)]: [return !!a;] *)
Definition operator_eq_nullptr (a : loc) : M E bool :=
  let* b := operator_bool a in ret (negb (negb b)).

(** [operator==(std::nullptr_t, const generic_smart_ptr&)]: [return !!a;] *)
Definition nullptr_operator_eq (a : loc) : M E bool :=
  let* b := operator_bool a in ret (negb (negb b)).

(** [operator!=(const generic_smart_ptr&, std::nullptr_t)]: [return !a;] *)
Definition operator_ne_nullptr (a : loc) : M E bool :=
  let* b := operator_bool a in ret (negb b).

(** [operator!=(std::nullptr_t, const generic_smart_ptr&)]: [return !a;] *)
Definition nullptr_operator_ne (a : loc) : M E bool :=
  let* b := operator_bool a in ret (negb b).

End Members.
End generic_smart_ptr.

(** ** [utils::generic_unique_ptr<T, GenericDeleter>] *)

Module generic_unique_ptr.
Section Members.
Context {E : Type} {GD : GenericDeleter.t E}.

Definition ctor_default : M E loc := generic_smart_ptr.ctor_default.
Definition ctor_nullptr : M E loc := generic_smart_ptr.ctor_default.
Definition ctor (ptr : Z) : M E loc := generic_smart_ptr.ctor ptr.
Definition move_ctor (other : loc) : M E loc :=
  generic_smart_ptr.move_ctor other.
Definition move_assign (this other : loc) : M E loc :=
  generic_smart_ptr.move_assign this other.
(** The implicit destructor runs the destructor of the base. *)
Definition dtor (this : loc) : M E unit := generic_smart_ptr.dtor this.

Definition operator_eq (a b : loc) : M E bool :=
  let* x := generic_smart_ptr.get a in
  let* y := generic_smart_ptr.get b in ret (x =? y).
Definition operator_ne (a b : loc) : M E bool :=
  let* x := generic_smart_ptr.get a in
  let* y := generic_smart_ptr.get b in ret (negb (x =? y)).
Definition operator_ge (a b : loc) : M E bool :=
  let* x := generic_smart_ptr.get a in
  let* y := generic_smart_ptr.get b in ret (x >=? y).
Definition operator_le (a b : loc) : M E bool :=
  let* x := generic_smart_ptr.get a in
  let* y := generic_smart_ptr.get b in ret (x <=? y).
Definition operator_gt (a b : loc) : M E bool :=
  let* x := generic_smart_ptr.get a in
  let* y := generic_smart_ptr.get b in ret (x >? y).
Definition operator_lt (a b : loc) : M E bool :=
  let* x := generic_smart_ptr.get a in
  let* y := generic_smart_ptr.get b in ret (x <? y).

(** [std::hash<generic_unique_ptr<T, SA>>::operator()(const T& x)]:
    [return std::hash<T*>()(x.get());].  As written, the parameter is a
    reference to the pointee type [T], not to the wrapper, and [get] is
    looked up in [T]; [T_get] stands for that member of the object at
    address [x]. *)
Definition hash (std_hash : Z -> Z) (T_get : Z -> M E Z) (x : Z) : M E Z :=
  let* p := T_get x in ret (std_hash p).

End Members.
End generic_unique_ptr.

(** ** [utils::generic_shared_ptr<T, GenericDeleter>] *)

Module generic_shared_ptr.
Section Members.
Context {E : Type} {GD : GenericDeleter.t E}.

Definition ctor_default : M E loc := generic_smart_ptr.ctor_default.
Definition ctor_nullptr : M E loc := generic_smart_ptr.ctor_default.
Definition ctor (ptr : Z) : M E loc := generic_smart_ptr.ctor ptr.
(** From a shared or from a unique pointer. *)
Definition move_ctor (other : loc) : M E loc :=
  generic_smart_ptr.move_ctor other.
Definition move_assign (this other : loc) : M E loc :=
  generic_smart_ptr.move_assign this other.
Definition dtor (this : loc) : M E unit := generic_smart_ptr.dtor this.

(** [generic_shared_ptr(const generic_shared_ptr& other)]: the base is
    initialised from [other.get()], then the body runs; if the body throws,
    the base is destroyed. *)
Definition copy_ctor (other : loc) : M E loc :=
  let* other_p := generic_smart_ptr.get other in
  let* this := generic_smart_ptr.ctor other_p in
  do* unwinding (generic_smart_ptr.dtor this)
        (let* p := generic_smart_ptr.get this in
         if negb (p =? nullptr)
         then let* q := generic_smart_ptr.get this in
              invoke (AddRef q) (GenericDeleter.add_ref q)
         else ret tt) in
  ret this.

(** [operator=(const generic_shared_ptr& other)]:
    [generic_shared_ptr(other).swap( *this ); return *this;]
    The temporary is destroyed at the end of the full expression. *)
Definition copy_assign (this other : loc) : M E loc :=
  let* tmp := copy_ctor other in
  do* generic_smart_ptr.swap tmp this in
  do* dtor tmp in
  ret this.

Definition use_count (this : loc) : M E Z :=
  let* _p := load this in
  fun m => Returns (GenericDeleter.use_count _p (ext m)) m.

Definition unique (this : loc) : M E bool :=
  let* n := use_count this in ret (n =? 1).

Definition operator_eq (a b : loc) : M E bool :=
  let* x := generic_smart_ptr.get a in
  let* y := generic_smart_ptr.get b in ret (x =? y).
Definition operator_ne (a b : loc) : M E bool :=
  let* x := generic_smart_ptr.get a in
  let* y := generic_smart_ptr.get b in ret (negb (x =? y)).
Definition operator_ge (a b : loc) : M E bool :=
  let* x := generic_smart_ptr.get a in
  let* y := generic_smart_ptr.get b in ret (x >=? y).
Definition operator_le (a b : loc) : M E bool :=
  let* x := generic_smart_ptr.get a in
  let* y := generic_smart_ptr.get b in ret (x <=? y).
Definition operator_gt (a b : loc) : M E bool :=
  let* x := generic_smart_ptr.get a in
  let* y := generic_smart_ptr.get b in ret (x >? y).
Definition operator_lt (a b : loc) : M E bool :=
  let* x := generic_smart_ptr.get a in
  let* y := generic_smart_ptr.get b in ret (x <? y).

(** [std::hash<generic_shared_ptr<T, SA>>::operator()(const T& x)]:
    [return std::hash<T*>()(x.get());].  As written, the parameter is a
    reference to the pointee type [T], not to the wrapper, and [get] is
    looked up in [T]; [T_get] stands for that member of the object at
    address [x]. *)
Definition hash (std_hash : Z -> Z) (T_get : Z -> M E Z) (x : Z) : M E Z :=
  let* p := T_get x in ret (std_hash p).

End Members.
End generic_shared_ptr.

(** ** Sequences of operations

    Every operation a client can apply to wrappers, as a command, so that
    properties of all operations are stated once. *)

(** Run [c] for its effect. *)
Definition ignore {E A} (c : M E A) : M E unit := do* c in ret tt.

Inductive handle_op : Type :=
  | HCtorDefault
  | HCtor (obj : Z)
  | HMoveCtor (other : positive)
  | HDtor (this : positive)
  | HGet (this : positive)
  | HBool (this : positive)
  | HRelease (this : positive)
  | HReset (this : positive) (new_obj : Z)
  | HMoveAssign (this other : positive)
  | HAssignNullptr (this : positive)
  | HSwap (this other : positive)
  | HEq (a b : positive)
  | HLt (a b : positive).

Inductive pointer_op : Type :=
  | PCtorDefault
  | PCtor (ptr : Z)
  | PMoveCtor (other : positive)
  | PCopyCtor (other : positive)
  | PDtor (this : positive)
  | PGet (this : positive)
  | PBool (this : positive)
  | PRelease (this : positive)
  | PReset (this : positive) (ptr : Z)
  | PMoveAssign (this other : positive)
  | PCopyAssign (this other : positive)
  | PAssignNullptr (this : positive)
  | PSwap (this other : positive)
  | PUseCount (this : positive)
  | PEq (a b : positive)
  | PEqNullptr (a : positive)
  | PNeNullptr (a : positive).

Section Run.
Context {E : Type}.

Definition run_handle_op {HD : HandleDeleter.t E} (o : handle_op) : M E unit :=
  match o with
  | HCtorDefault => ignore unique_handle.ctor_default
  | HCtor obj => ignore (unique_handle.ctor obj)
  | HMoveCtor other => ignore (unique_handle.move_ctor other)
  | HDtor this => unique_handle.dtor this
  | HGet this => ignore (unique_handle.get this)
  | HBool this => ignore (unique_handle.operator_bool this)
  | HRelease this => ignore (unique_handle.release this)
  | HReset this new_obj => unique_handle.reset this new_obj
  | HMoveAssign this other => ignore (unique_handle.move_assign this other)
  | HAssignNullptr this => ignore (unique_handle.assign_nullptr this)
  | HSwap this other => unique_handle.swap this other
  | HEq a b => ignore (unique_handle.operator_eq a b)
  | HLt a b => ignore (unique_handle.operator_lt a b)
  end.

Definition run_pointer_op {GD : GenericDeleter.t E} (o : pointer_op) : M E unit :=
  match o with
  | PCtorDefault => ignore generic_smart_ptr.ctor_default
  | PCtor ptr => ignore (generic_smart_ptr.ctor ptr)
  | PMoveCtor other => ignore (generic_smart_ptr.move_ctor other)
  | PCopyCtor other => ignore (generic_shared_ptr.copy_ctor other)
  | PDtor this => generic_smart_ptr.dtor this
  | PGet this => ignore (generic_smart_ptr.get this)
  | PBool this => ignore (generic_smart_ptr.operator_bool this)
  | PRelease this => ignore (generic_smart_ptr.release this)
  | PReset this ptr => generic_smart_ptr.reset this ptr
  | PMoveAssign this other => ignore (generic_smart_ptr.move_assign this other)
  | PCopyAssign this other => ignore (generic_shared_ptr.copy_assign this other)
  | PAssignNullptr this => ignore (generic_smart_ptr.assign_nullptr this)
  | PSwap this other => generic_smart_ptr.swap this other
  | PUseCount this => ignore (generic_shared_ptr.use_count this)
  | PEq a b => ignore (generic_shared_ptr.operator_eq a b)
  | PEqNullptr a => ignore (generic_smart_ptr.operator_eq_nullptr a)
  | PNeNullptr a => ignore (generic_smart_ptr.operator_ne_nullptr a)
  end.

(** Run the commands in order; an exception or undefined behaviour ends the
    run. *)
Fixpoint run_all (cs : list (M E unit)) : M E unit :=
  match cs with
  | [] => ret tt
  | c :: cs' => do* c in run_all cs'
  end.

Definition run_handle_ops {HD : HandleDeleter.t E} (os : list handle_op) : M E unit :=
  run_all (map run_handle_op os).

Definition run_pointer_ops {GD : GenericDeleter.t E} (os : list pointer_op) : M E unit :=
  run_all (map run_pointer_op os).

End Run.

(** The state a run ends in, when it is defined. *)
Definition final {E A} (r : outcome E A) : option (machine E) :=
  match r with
  | Returns _ m => Some m
  | Throws m => Some m
  | Undefined => None
  end.

(** The calls made up to the end of a run. *)
Definition calls_made {E A} (r : outcome E A) : list call :=
  match final r with Some m => calls (log m) | None => [] end.

(** No call in the log releases the value [null]. *)
Definition never_releases (null : Z) (l : list event) : Prop :=
  Forall (fun e => ev_call e <> Release null) l.

(** ** The policies of the documentation's examples *)

(** [POSIXFileDeleter]: [null = -1], [release] closes the descriptor.  The
    external state is the list of descriptors closed so far. *)
#[export] Instance POSIXFileDeleter : HandleDeleter.t (list Z) := {|
  HandleDeleter.null := -1;
  HandleDeleter.release := fun handle closed => closed ++ [handle]
|}.

(** [GLibDeleter]: [release] is [g_object_unref], [add_ref] is
    [g_object_ref].  The external state gives every address its reference
    count; [add_ref] throws once a count has reached [limit]. *)
Definition GLibDeleter_limit (limit : Z) : GenericDeleter.t (Z -> Z) := {|
  GenericDeleter.release := fun obj refs q =>
    if q =? obj then refs q - 1 else refs q;
  GenericDeleter.add_ref := fun obj refs =>
    if refs obj <? limit
    then (Normal, fun q => if q =? obj then refs q + 1 else refs q)
    else (Thrown, refs);
  GenericDeleter.use_count := fun obj refs => refs obj
|}.

#[export] Instance GLibDeleter : GenericDeleter.t (Z -> Z) :=
  GLibDeleter_limit 8.

(** Two wrappers at addresses 1 and 2 holding the values [a] and [b]. *)
Definition two_wrappers {E} (a b : Z) (e : E) : machine E :=
  Machine (<[2%positive := b]> (<[1%positive := a]> ∅)) [] e.

(** ** Reasoning about runs *)

(** [c] run from [m] returns, and the result satisfies [Q]. *)
Definition returns {E A} (c : M E A) (m : machine E)
  (Q : A -> machine E -> Prop) : Prop :=
  exists a m', c m = Returns a m' /\ Q a m'.

(** [c] run from [m] exits by an exception, in a state satisfying [Q]. *)
Definition throws {E A} (c : M E A) (m : machine E)
  (Q : machine E -> Prop) : Prop :=
  exists m', c m = Throws m' /\ Q m'.

(** The calls a policy receives for a value leaving a wrapper: one
    [Release] unless the value is the null one. *)
Definition released (null v : Z) : list call :=
  if v =? null then [] else [Release v].

(** The same for the reference a copy adds to a pointer. *)
Definition add_refed (v : Z) : list call :=
  if v =? nullptr then [] else [AddRef v].

(** The final state of every defined run satisfies [P]. *)
Definition ends_with {E A} (r : outcome E A) (P : machine E -> Prop) : Prop :=
  match final r with Some m => P m | None => True end.

(** Reference counts that start at one. *)
Definition one_ref : Z -> Z := fun _ => 1.

(** ** Properties shared by the wrapper classes

    [unique_handle] and [generic_smart_ptr] have the same members over
    different null values; a property is stated once over the members it
    speaks of and proved for each class. *)

Section Properties.
Context {E : Type} (null : Z).
Variable reset : positive -> Z -> M E unit.
Variable dtor : positive -> M E unit.
Variable release : positive -> M E Z.
Variable move_ctor : positive -> M E positive.
Variable move_assign : positive -> positive -> M E positive.
Variable assign_nullptr : positive -> M E positive.
Variable operator_eq : positive -> positive -> M E bool.
Variable get : positive -> M E Z.

(** Moving [src] into a new wrapper calls nothing, leaves [src] null, and
    [release] on the new wrapper hands out what [src] held. *)
Definition move_ctor_transfers : Prop :=
  forall (m : machine E) (src : positive) (v : Z),
    heap m !! src = Some v ->
    returns (move_ctor src) m (fun dst m' =>
      heap m !! dst = None /\ log m' = log m /\ ext m' = ext m /\
      heap m' !! src = Some null /\
      returns (release dst) m' (fun r m'' => r = v /\ log m'' = log m)).

(** Move assignment between two different wrappers releases what the
    destination held (unless null) and calls nothing else, so that the value
    moved in is released only when the destination held that same value;
    it leaves [src] null, and [release] on the destination hands out what
    [src] held. *)
Definition move_assign_transfers : Prop :=
  forall (m : machine E) (dst src : positive) (old v : Z),
    dst <> src ->
    heap m !! dst = Some old ->
    heap m !! src = Some v ->
    returns (move_assign dst src) m (fun r m' =>
      r = dst /\
      calls (log m') = calls (log m) ++ released null old /\
      (old <> v -> ~ In (Release v) (released null old)) /\
      (old = v -> v <> null -> calls (log m') = calls (log m) ++ [Release v]) /\
      count is_add_ref (calls (log m')) = count is_add_ref (calls (log m)) /\
      heap m' !! src = Some null /\
      returns (release dst) m' (fun r' m'' => r' = v /\ log m'' = log m')).

(** Move assignment of a wrapper to itself calls nothing and keeps the
    value. *)
Definition self_move_assign_keeps : Prop :=
  forall (m : machine E) (a : positive) (v : Z),
    heap m !! a = Some v ->
    returns (move_assign a a) m (fun r m' =>
      r = a /\ log m' = log m /\ ext m' = ext m /\ heap m' = heap m).

(** [reset()] and then the destructor: one [Release] of the held value in
    all, none when it is null. *)
Definition reset_then_dtor_releases_once : Prop :=
  forall (m : machine E) (w : positive) (v : Z),
    heap m !! w = Some v ->
    returns (do* reset w null in dtor w) m (fun _ m' =>
      calls (log m') = calls (log m) ++ released null v /\
      (count is_release (calls (log m'))
       <= count is_release (calls (log m)) + 1)%nat).

(** The destructor makes the calls of [reset()], with the same effect on
    the external state, and then the object is gone. *)
Definition dtor_as_reset : Prop :=
  forall (m : machine E) (w : positive) (v : Z),
    heap m !! w = Some v ->
    returns (dtor w) m (fun _ md =>
      returns (reset w null) m (fun _ mr =>
        calls (log md) = calls (log mr) /\ ext md = ext mr /\
        heap md = delete w (heap mr))).

(** [w = nullptr] is [w.reset()]: the held value is released once unless
    it is null, and the wrapper is null afterwards. *)
Definition assign_nullptr_as_reset : Prop :=
  forall (m : machine E) (w : positive) (v : Z),
    heap m !! w = Some v ->
    returns (assign_nullptr w) m (fun r m' =>
      r = w /\ reset w null m = Returns tt m' /\
      heap m' !! w = Some null /\
      calls (log m') = calls (log m) ++ released null v).

(** [a == b] compares what [get] returns, and nothing else is read or
    called. *)
Definition eq_by_raw_value : Prop :=
  forall (m : machine E) (a b : positive) (x y : Z),
    heap m !! a = Some x ->
    heap m !! b = Some y ->
    get a m = Returns x m /\ get b m = Returns y m /\
    exists r : bool, operator_eq a b m = Returns r m /\ (r = true <-> x = y).

(** Wrappers that compare equal have the same hash, the standard hash of
    what [get] returns. *)
Definition hash_by_raw_value (hash : (Z -> Z) -> positive -> M E Z) : Prop :=
  forall (std_hash : Z -> Z) (m : machine E) (a b : positive) (x y : Z),
    heap m !! a = Some x ->
    heap m !! b = Some y ->
    hash std_hash a m = Returns (std_hash x) m /\
    hash std_hash b m = Returns (std_hash y) m /\
    (operator_eq a b m = Returns true m -> std_hash x = std_hash y).

End Properties.

(** ** The remaining library functions *)

(** What a [noexcept] function whose body can throw yields: an exception
    that leaves the body calls [std::terminate]. *)
Inductive noexcept_outcome (E A : Type) : Type :=
  | Finishes (a : A) (m : machine E)
  | Terminates (m : machine E)
  | Unspecified.
Arguments Finishes {E A} _ _.
Arguments Terminates {E A} _.
Arguments Unspecified {E A}.

Definition noexcept_body {E A} (c : M E A) (m : machine E)
  : noexcept_outcome E A :=
  match c m with
  | Returns a m' => Finishes a m'
  | Throws m' => Terminates m'
  | Undefined => Unspecified
  end.

Module std.
Section Functions.
Context {E : Type}.

(** [std::swap(unique_handle&, unique_handle&)]: [a.swap(b);] *)
Definition swap_unique_handle {HD : HandleDeleter.t E} (a b : loc) : M E unit :=
  unique_handle.swap a b.

(** [std::swap] of two [generic_unique_ptr] or of two [generic_shared_ptr]:
    [a.swap(b);] *)
Definition swap_generic_ptr {GD : GenericDeleter.t E} (a b : loc) : M E unit :=
  generic_smart_ptr.swap a b.

(** [std::static_pointer_cast<T>(const U& r) noexcept], over the address
    conversion [static_cast] from the pointee type of [r] to [T]. *)
Definition static_pointer_cast {GD : GenericDeleter.t E}
  (static_cast : Z -> Z) (r : loc) : machine E -> noexcept_outcome E loc :=
  noexcept_body
    (let* p := generic_smart_ptr.get r in
     let ret_ptr := static_cast p in
     do* (if negb (ret_ptr =? nullptr)
          then invoke (AddRef ret_ptr) (GenericDeleter.add_ref ret_ptr)
          else ret tt) in
     generic_shared_ptr.ctor ret_ptr).

(** [std::const_pointer_cast<T>(const U& r) noexcept]; [const_cast] keeps
    the address. *)
Definition const_pointer_cast {GD : GenericDeleter.t E} (r : loc)
  : machine E -> noexcept_outcome E loc :=
  noexcept_body
    (let* p := generic_smart_ptr.get r in
     let ret_ptr := p in
     do* (if negb (ret_ptr =? nullptr)
          then invoke (AddRef ret_ptr) (GenericDeleter.add_ref ret_ptr)
          else ret tt) in
     generic_shared_ptr.ctor ret_ptr).

(** The [std::hash] that [UTILS_DEF_SMART_PTR_STD_FUNCS] generates for an
    alias class [Namespace::PtrType_ptr<T>]: [return hash<T*>()(x.get());]
    with [x] the wrapper. *)
Definition hash_alias {GD : GenericDeleter.t E}
  (std_hash : Z -> Z) (x : loc) : M E Z :=
  let* p := generic_smart_ptr.get x in ret (std_hash p).

End Functions.
End std.

(** ** Accounting for references *)

(** One if the field value [v] is [p]. *)
Definition holds (p v : Z) : Z := if v =? p then 1 else 0.

(** The same for the object at an address, none when there is no object. *)
Definition held (p : Z) (o : option Z) : Z :=
  match o with Some v => holds p v | None => 0 end.

(** How many live wrappers hold [p]. *)
Definition holders (p : Z) (h : gmap positive Z) : Z :=
  map_fold (fun _ v n => holds p v + n) 0 h.

Definition releases (p : Z) (c : call) : bool :=
  match c with Release v => v =? p | AddRef _ => false end.
Definition add_refs (p : Z) (c : call) : bool :=
  match c with AddRef v => v =? p | Release _ => false end.

(** The references to [p] the wrappers have answered for: those they hold,
    plus those they have released, minus those they have added. *)
Definition balance {E} (p : Z) (m : machine E) : Z :=
  holders p (heap m)
  + Z.of_nat (count (releases p) (calls (log m)))
  - Z.of_nat (count (add_refs p) (calls (log m))).

(** The operations that neither take a reference from the caller nor hand
    one to the caller: all but construction from and [reset] to a raw value
    that is not null, and [release()]. *)
Definition keeps_handles {E} {HD : HandleDeleter.t E} (o : handle_op) : bool :=
  match o with
  | HCtor obj => obj =? HandleDeleter.null
  | HReset _ new_obj => new_obj =? HandleDeleter.null
  | HRelease _ => false
  | _ => true
  end.

Definition keeps_pointers (o : pointer_op) : bool :=
  match o with
  | PCtor ptr => ptr =? nullptr
  | PReset _ ptr => ptr =? nullptr
  | PRelease _ => false
  | _ => true
  end.

(** The operations an exclusive pointer wrapper has: no copies. *)
Definition copies (o : pointer_op) : bool :=
  match o with
  | PCopyCtor _ | PCopyAssign _ _ => true
  | _ => false
  end.

(** The operations of an exclusive owner that stay among wrappers. *)
Definition moves_only (o : pointer_op) : bool :=
  keeps_pointers o && negb (copies o).

(** No call in the log adds a reference to the null pointer. *)
Definition never_add_refs_null (l : list event) : Prop :=
  Forall (fun e => ev_call e <> AddRef nullptr) l.

(** The final state of a [noexcept] function that finishes or terminates
    satisfies [P]. *)
Definition noexcept_ends_with {E A} (r : noexcept_outcome E A)
  (P : machine E -> Prop) : Prop :=
  match r with
  | Finishes _ m => P m
  | Terminates m => P m
  | Unspecified => True
  end.

(** ** Further properties shared by the wrapper classes *)

Section MoreProperties.
Context {E : Type} (null : Z).
Variable ctor_default : M E positive.
Variable ctor : Z -> M E positive.
Variable dtor : positive -> M E unit.
Variable get : positive -> M E Z.
Variable operator_bool : positive -> M E bool.
Variable release : positive -> M E Z.
Variable reset : positive -> Z -> M E unit.
Variable swap : positive -> positive -> M E unit.
Variable operator_eq operator_ne : positive -> positive -> M E bool.
Variable operator_ge operator_le : positive -> positive -> M E bool.
Variable operator_gt operator_lt : positive -> positive -> M E bool.

(** [release()] hands the value to the caller: nothing is called, the
    wrapper is null, and its destruction calls nothing either. *)
Definition release_hands_over : Prop :=
  forall (m : machine E) (w : positive) (v : Z),
    heap m !! w = Some v ->
    returns (release w) m (fun r m' =>
      r = v /\ heap m' = <[w := null]> (heap m) /\
      log m' = log m /\ ext m' = ext m /\
      operator_bool w m' = Returns false m' /\
      returns (dtor w) m' (fun _ m'' =>
        heap m'' = delete w (heap m) /\ log m'' = log m /\ ext m'' = ext m)).

(** [reset(new)] leaves the wrapper holding [new] and releases what it
    held before, once, unless that was null; in particular a wrapper reset
    to the value it holds keeps a value it has released. *)
Definition reset_stores_and_releases : Prop :=
  forall (m : machine E) (w : positive) (old new : Z),
    heap m !! w = Some old ->
    returns (reset w new) m (fun _ m' =>
      heap m' = <[w := new]> (heap m) /\
      calls (log m') = calls (log m) ++ released null old /\
      get w m' = Returns new m').

(** A wrapper constructed from [v] and destroyed releases [v] once, unless
    [v] is null, calls nothing else and leaves no object behind; a default
    constructed one calls nothing. *)
Definition ctor_then_dtor_releases : Prop :=
  forall (m : machine E) (v : Z),
    returns (let* w := ctor v in dtor w) m (fun _ m' =>
      heap m' = heap m /\
      calls (log m') = calls (log m) ++ released null v)
    /\ returns (let* w := ctor_default in dtor w) m (fun _ m' =>
         heap m' = heap m /\ log m' = log m /\ ext m' = ext m).

(** [swap] exchanges the two values and calls nothing; swapping again
    restores the state. *)
Definition swap_exchanges : Prop :=
  forall (m : machine E) (a b : positive) (x y : Z),
    heap m !! a = Some x ->
    heap m !! b = Some y ->
    returns (swap a b) m (fun _ m' =>
      heap m' = <[a := y]> (<[b := x]> (heap m)) /\
      log m' = log m /\ ext m' = ext m /\
      get a m' = Returns y m' /\ get b m' = Returns x m' /\
      returns (swap a b) m' (fun _ m'' =>
        heap m'' = heap m /\ log m'' = log m /\ ext m'' = ext m)).

(** The six comparisons read the two values and nothing else, and agree
    with one another: exactly one of [<], [==], [>] holds, [!=] negates
    [==], [>=] negates [<], [<=] negates [>], and [a > b] is [b < a]. *)
Definition comparisons_agree : Prop :=
  forall (m : machine E) (a b : positive) (x y : Z),
    heap m !! a = Some x ->
    heap m !! b = Some y ->
    exists e l g : bool,
      operator_eq a b m = Returns e m /\
      operator_lt a b m = Returns l m /\
      operator_gt a b m = Returns g m /\
      operator_ne a b m = Returns (negb e) m /\
      operator_ge a b m = Returns (negb l) m /\
      operator_le a b m = Returns (negb g) m /\
      operator_lt b a m = Returns g m /\
      (l = true <-> x < y) /\ (e = true <-> x = y) /\ (g = true <-> y < x) /\
      ((l = true /\ e = false /\ g = false)
       \/ (l = false /\ e = true /\ g = false)
       \/ (l = false /\ e = false /\ g = true)).

(** The boolean conversion is true exactly when [get()] is not null. *)
Definition bool_iff_not_null : Prop :=
  forall (m : machine E) (w : positive) (v : Z),
    heap m !! w = Some v ->
    exists b : bool,
      operator_bool w m = Returns b m /\ get w m = Returns v m /\
      (b = true <-> v <> null).

End MoreProperties.

(** ** Auxiliary facts and tactics *)

Lemma calls_app (l1 l2 : list event) : calls (l1 ++ l2) = calls l1 ++ calls l2.
Proof. unfold calls. apply map_app. Qed.

Lemma count_app f (l1 l2 : list call) :
  count f (l1 ++ l2) = (count f l1 + count f l2)%nat.
Proof. induction l1 as [|c l1 IH]; simpl; [reflexivity|]. rewrite IH. lia. Qed.

Lemma alloc_fresh (h : gmap positive Z) : h !! fresh (dom h) = None.
Proof. apply not_elem_of_dom. apply is_fresh. Qed.

Lemma fresh_ne (h : gmap positive Z) (l : positive) (v : Z) :
  h !! l = Some v -> fresh (dom h) <> l.
Proof. intros H Heq. rewrite <- Heq in H. rewrite alloc_fresh in H. discriminate. Qed.

Lemma fresh_ne' (h : gmap positive Z) (l : positive) (v : Z) :
  h !! l = Some v -> l <> fresh (dom h).
Proof. intros H Heq. symmetry in Heq. revert Heq. eapply fresh_ne, H. Qed.

Create HintDb heap.
#[local] Hint Resolve fresh_ne fresh_ne' alloc_fresh : heap.

(** Unfold the members and the primitives they are made of. *)
Ltac unfold_members :=
  unfold unique_handle.move_assign, unique_handle.assign_nullptr,
    unique_handle.move_ctor, unique_handle.ctor, unique_handle.ctor_default,
    unique_handle.dtor, unique_handle.reset, unique_handle.release,
    unique_handle.swap, unique_handle.operator_bool, unique_handle.hash,
    unique_handle.operator_eq, unique_handle.operator_ne,
    unique_handle.operator_ge, unique_handle.operator_le,
    unique_handle.operator_gt, unique_handle.operator_lt,
    unique_handle.get,
    generic_shared_ptr.copy_assign, generic_shared_ptr.copy_ctor,
    generic_shared_ptr.use_count, generic_shared_ptr.unique,
    generic_shared_ptr.move_assign, generic_shared_ptr.move_ctor,
    generic_shared_ptr.ctor, generic_shared_ptr.ctor_default,
    generic_shared_ptr.ctor_nullptr, generic_shared_ptr.dtor,
    generic_shared_ptr.operator_eq, generic_shared_ptr.operator_ne,
    generic_shared_ptr.operator_ge, generic_shared_ptr.operator_le,
    generic_shared_ptr.operator_gt, generic_shared_ptr.operator_lt,
    generic_unique_ptr.move_assign, generic_unique_ptr.move_ctor,
    generic_unique_ptr.ctor, generic_unique_ptr.ctor_default,
    generic_unique_ptr.ctor_nullptr, generic_unique_ptr.dtor,
    generic_unique_ptr.operator_eq, generic_unique_ptr.operator_ne,
    generic_unique_ptr.operator_ge, generic_unique_ptr.operator_le,
    generic_unique_ptr.operator_gt, generic_unique_ptr.operator_lt,
    generic_smart_ptr.move_assign, generic_smart_ptr.assign_nullptr,
    generic_smart_ptr.move_ctor, generic_smart_ptr.ctor,
    generic_smart_ptr.ctor_default, generic_smart_ptr.dtor,
    generic_smart_ptr.reset, generic_smart_ptr.release,
    generic_smart_ptr.swap,
    generic_smart_ptr.operator_eq_nullptr, generic_smart_ptr.nullptr_operator_eq,
    generic_smart_ptr.operator_ne_nullptr, generic_smart_ptr.nullptr_operator_ne,
    generic_smart_ptr.operator_bool, generic_smart_ptr.get in *;
  unfold unwinding, bind, ret, load, write, alloc, free, invoke, noexcept in *.

(** Resolve the store lookups a run performs. *)
Ltac lookup_step :=
  first
    [ rewrite lookup_insert_eq
    | rewrite lookup_insert_ne by eauto with heap
    | rewrite lookup_delete_eq
    | rewrite lookup_delete_ne by eauto with heap
    | match goal with H : _ !! _ = _ |- _ => rewrite H end
    | match goal with H : fst _ = _ |- _ => rewrite H end ];
  cbn [heap log ext fst snd].

Ltac lookups := cbn [heap log ext fst snd]; repeat lookup_step.

Ltac exec := unfold_members; lookups.

Lemma never_releases_snoc null l c h :
  never_releases null l -> c <> Release null ->
  never_releases null (l ++ [Event c h]).
Proof.
  intros Hl Hc. apply Forall_app. split; [exact Hl|].
  constructor; [exact Hc | constructor].
Qed.

Lemma release_ne v null :
  negb (v =? null) = true -> Release v <> Release null.
Proof.
  intros H Heq. injection Heq as ->. rewrite Z.eqb_refl in H. discriminate.
Qed.

Lemma add_ref_ne v null : AddRef v <> Release null.
Proof. discriminate. Qed.

#[local] Hint Resolve never_releases_snoc release_ne add_ref_ne : heap.

(** Case analysis on the innermost test a run depends on. *)
Ltac split_run :=
  repeat match goal with
  | |- context [match ?x with _ => _ end] =>
      lazymatch x with
      | context [match _ with _ => _ end] => fail
      | _ => destruct x eqn:?; cbn [heap log ext fst snd final negb] in *
      end
  end.

(** Decide the null tests of a run, and continue it. *)
Ltac null_cases :=
  unfold released, add_refed;
  repeat (match goal with
          | |- context [Z.eqb ?a ?b] => destruct (Z.eqb_spec a b)
          end;
          try congruence; cbn [negb heap log ext fst snd]; lookups).

Ltac run := unfold returns, throws; exec; null_cases.

(** ** Comparison with the null literal *)

Section NullComparison.
Context {E : Type} {GD : GenericDeleter.t E}.

Lemma operator_bool_eq (m : machine E) (w : loc) (p : Z) :
  heap m !! w = Some p ->
  generic_smart_ptr.operator_bool w m = Returns (negb (p =? nullptr)) m.
Proof. intros H. exec. reflexivity. Qed.

(** As written, [==] against the null literal is the boolean conversion
    itself and [!=] is its negation. *)
Lemma operator_eq_nullptr_eq (m : machine E) (w : loc) (p : Z) :
  heap m !! w = Some p ->
  generic_smart_ptr.operator_eq_nullptr w m = Returns (negb (p =? nullptr)) m
  /\ generic_smart_ptr.nullptr_operator_eq w m = Returns (negb (p =? nullptr)) m
  /\ generic_smart_ptr.operator_ne_nullptr w m = Returns (p =? nullptr) m
  /\ generic_smart_ptr.nullptr_operator_ne w m = Returns (p =? nullptr) m.
Proof.
  intros H. repeat split; exec; rewrite ?negb_involutive; reflexivity.
Qed.

End NullComparison.

(** C1, evaluated on the code: for a wrapper holding the address 4096,
    [bool(w)] is true and yet [w == nullptr] and [nullptr == w] are true
    and [w != nullptr] and [nullptr != w] are false; for a null wrapper
    [w == nullptr] is false and [w != nullptr] is true.  The comparisons
    with the null literal are the opposite of what the claim states. *)
Theorem nullptr_comparison_inverted :
  let m := two_wrappers 4096 nullptr one_ref in
  generic_smart_ptr.get 1%positive m = Returns 4096 m
  /\ generic_smart_ptr.operator_bool 1%positive m = Returns true m
  /\ generic_smart_ptr.operator_eq_nullptr 1%positive m = Returns true m
  /\ generic_smart_ptr.nullptr_operator_eq 1%positive m = Returns true m
  /\ generic_smart_ptr.operator_ne_nullptr 1%positive m = Returns false m
  /\ generic_smart_ptr.nullptr_operator_ne 1%positive m = Returns false m
  /\ generic_smart_ptr.get 2%positive m = Returns nullptr m
  /\ generic_smart_ptr.operator_bool 2%positive m = Returns false m
  /\ generic_smart_ptr.operator_eq_nullptr 2%positive m = Returns false m
  /\ generic_smart_ptr.operator_ne_nullptr 2%positive m = Returns true m.
Proof. repeat split. Qed.

(** ** Release on reset and on destruction *)

Section ExclusiveRelease.
Context {E : Type} {GD : GenericDeleter.t E}.

(** C2, as amended: for an exclusive pointer wrapper holding a non-null
    pointer [p], [reset(ptr)] and the destructor each call the policy's
    [release] exactly once, on [p].  [reset] stores [ptr] (null for
    [reset()]) before the call, so the call observes the updated wrapper;
    the destructor makes the call while the wrapper still holds [p]. *)
Theorem exclusive_release_once (m : machine E) (w : loc) (p : Z) :
  heap m !! w = Some p ->
  p <> nullptr ->
  (forall ptr : Z,
     returns (generic_smart_ptr.reset w ptr) m (fun _ m' =>
       exists view,
         log m' = log m ++ [Event (Release p) view] /\
         view !! w = Some ptr /\
         heap m' !! w = Some ptr /\
         ext m' = GenericDeleter.release p (ext m)))
  /\ returns (generic_unique_ptr.dtor w) m (fun _ m' =>
       exists view,
         log m' = log m ++ [Event (Release p) view] /\
         view !! w = Some p /\
         heap m' !! w = None /\
         ext m' = GenericDeleter.release p (ext m)).
Proof.
  intros Hw Hp. split; [intros ptr|]; run;
    eexists _, _; (split; [reflexivity|]); eexists; cbn [heap log ext];
    repeat split; lookups; auto.
Qed.

End ExclusiveRelease.

Lemma exclusive_release_once_witness :
  (forall ptr : Z,
     returns (generic_smart_ptr.reset 1%positive ptr)
       (two_wrappers 4096 nullptr one_ref) (fun _ m' =>
         exists view,
           log m' = [] ++ [Event (Release 4096) view] /\
           view !! 1%positive = Some ptr /\
           heap m' !! 1%positive = Some ptr /\
           ext m' = GenericDeleter.release 4096 one_ref))
  /\ returns (generic_unique_ptr.dtor 1%positive)
       (two_wrappers 4096 nullptr one_ref) (fun _ m' =>
         exists view,
           log m' = [] ++ [Event (Release 4096) view] /\
           view !! 1%positive = Some 4096 /\
           heap m' !! 1%positive = None /\
           ext m' = GenericDeleter.release 4096 one_ref).
Proof.
  apply (exclusive_release_once (two_wrappers 4096 nullptr one_ref) 1%positive 4096).
  - reflexivity.
  - discriminate.
Defined.

(** C2, as stated, fails for the destructor: when the wrapper at address 1
    holding 4096 is destroyed, the one call of [release] does not observe a
    nulled wrapper. *)
Lemma dtor_release_sees_pointer :
  ~ returns (generic_unique_ptr.dtor 1%positive)
      (two_wrappers 4096 nullptr one_ref) (fun _ m' =>
        exists view,
          log m' = [Event (Release 4096) view] /\
          view !! 1%positive = Some nullptr).
Proof.
  intros (u & m' & Hrun & view & Hlog & Hview).
  vm_compute in Hrun. injection Hrun as _ <-.
  cbn [log] in Hlog. injection Hlog as <-.
  vm_compute in Hview. discriminate Hview.
Qed.

(** ** Move construction and move assignment *)

(** Exhibit the result of a run whose tests are decided. *)
Ltac returned :=
  eexists _, _; split; [lookups; reflexivity | cbn [heap log ext]].

Section HandleMoves.
Context {E : Type} {HD : HandleDeleter.t E}.

Lemma unique_handle_move_ctor_transfers :
  move_ctor_transfers HandleDeleter.null
    unique_handle.release unique_handle.move_ctor.
Proof.
  intros m src v Hsrc. run. returned.
  repeat split; lookups; auto with heap.
  returned. auto.
Qed.

Lemma unique_handle_move_assign_transfers :
  move_assign_transfers HandleDeleter.null
    unique_handle.release unique_handle.move_assign.
Proof.
  intros m dst src old v Hne Hdst Hsrc. run.
  all: returned.
  all: rewrite ?calls_app, ?count_app, ?app_nil_r; cbn [calls map count is_add_ref].
  all: repeat split; lookups; auto; try lia.
  all: try (intros _ []; fail).
  all: try (intros Hov [Hin|[]]; congruence).
  all: try (intros -> _; reflexivity).
  all: try (intros; congruence).
  all: returned; auto.
Qed.

Lemma unique_handle_self_move_assign_keeps :
  self_move_assign_keeps unique_handle.move_assign.
Proof.
  intros m a v Ha. run.
  all: returned.
  all: repeat split; rewrite ?insert_insert_eq; auto.
  all: apply insert_id; assumption.
Qed.

End HandleMoves.

Section PointerMoves.
Context {E : Type} {GD : GenericDeleter.t E}.

Lemma generic_smart_ptr_move_ctor_transfers :
  move_ctor_transfers (E := E) nullptr
    generic_smart_ptr.release generic_smart_ptr.move_ctor.
Proof.
  intros m src v Hsrc. run. returned.
  repeat split; lookups; auto with heap.
  returned. auto.
Qed.

Lemma generic_smart_ptr_move_assign_transfers :
  move_assign_transfers (E := E) nullptr
    generic_smart_ptr.release generic_smart_ptr.move_assign.
Proof.
  intros m dst src old v Hne Hdst Hsrc. run.
  all: returned.
  all: rewrite ?calls_app, ?count_app, ?app_nil_r; cbn [calls map count is_add_ref].
  all: repeat split; lookups; auto; try lia.
  all: try (intros _ []; fail).
  all: try (intros Hov [Hin|[]]; congruence).
  all: try (intros -> _; reflexivity).
  all: try (intros; congruence).
  all: returned; auto.
Qed.

Lemma generic_smart_ptr_self_move_assign_keeps :
  self_move_assign_keeps (E := E) generic_smart_ptr.move_assign.
Proof.
  intros m a v Ha. run.
  all: returned.
  all: repeat split; rewrite ?insert_insert_eq; auto.
  all: apply insert_id; assumption.
Qed.

End PointerMoves.

(** C3, as amended: for the scalar handle, the exclusive pointer and the
    shared pointer wrapper, move construction calls neither [release] nor
    [add_ref]; move assignment never calls [add_ref], and the only call it
    makes is one [release] of the value the destination held before, when
    that value is not null.  The value moved in is therefore released
    exactly when the destination already held that same value (two shared
    wrappers of one object), and not otherwise.  When source and destination
    are different objects the moved-from wrapper is null afterwards and
    [release()] on the destination returns the value the source held;
    moving a wrapper into itself calls nothing and keeps its value. *)
Theorem move_transfers_ownership :
  (forall (E : Type) (HD : HandleDeleter.t E),
     move_ctor_transfers (E := E) HandleDeleter.null
       unique_handle.release unique_handle.move_ctor
     /\ move_assign_transfers (E := E) HandleDeleter.null
          unique_handle.release unique_handle.move_assign
     /\ self_move_assign_keeps (E := E) unique_handle.move_assign)
  /\ (forall (E : Type) (GD : GenericDeleter.t E),
        (move_ctor_transfers (E := E) nullptr
           generic_smart_ptr.release generic_unique_ptr.move_ctor
         /\ move_assign_transfers (E := E) nullptr
              generic_smart_ptr.release generic_unique_ptr.move_assign
         /\ self_move_assign_keeps (E := E) generic_unique_ptr.move_assign)
        /\ (move_ctor_transfers (E := E) nullptr
              generic_smart_ptr.release generic_shared_ptr.move_ctor
            /\ move_assign_transfers (E := E) nullptr
                 generic_smart_ptr.release generic_shared_ptr.move_assign
            /\ self_move_assign_keeps (E := E) generic_shared_ptr.move_assign)).
Proof.
  split; intros E D.
  - split; [|split].
    + apply unique_handle_move_ctor_transfers.
    + apply unique_handle_move_assign_transfers.
    + apply unique_handle_self_move_assign_keeps.
  - split; (split; [|split]).
    + exact generic_smart_ptr_move_ctor_transfers.
    + exact generic_smart_ptr_move_assign_transfers.
    + exact generic_smart_ptr_self_move_assign_keeps.
    + exact generic_smart_ptr_move_ctor_transfers.
    + exact generic_smart_ptr_move_assign_transfers.
    + exact generic_smart_ptr_self_move_assign_keeps.
Qed.

Lemma move_transfers_ownership_witness :
  returns (unique_handle.move_assign 1%positive 2%positive)
    (two_wrappers 5 7 ([] : list Z)) (fun r m' =>
      r = 1%positive /\
      calls (log m') = calls [] ++ released HandleDeleter.null 5 /\
      (5 <> 7 -> ~ In (Release 7) (released HandleDeleter.null 5)) /\
      (5 = 7 -> 7 <> HandleDeleter.null ->
       calls (log m') = calls [] ++ [Release 7]) /\
      count is_add_ref (calls (log m')) = count is_add_ref (calls []) /\
      heap m' !! 2%positive = Some HandleDeleter.null /\
      returns (unique_handle.release 1%positive) m' (fun r' m'' =>
        r' = 7 /\ log m'' = log m'))
  /\ returns (generic_shared_ptr.move_assign 1%positive 2%positive)
       (two_wrappers 4096 4096 one_ref) (fun r m' =>
         r = 1%positive /\
         calls (log m') = calls [] ++ released nullptr 4096 /\
         (4096 <> 4096 -> ~ In (Release 4096) (released nullptr 4096)) /\
         (4096 = 4096 -> 4096 <> nullptr ->
          calls (log m') = calls [] ++ [Release 4096]) /\
         count is_add_ref (calls (log m')) = count is_add_ref (calls []) /\
         heap m' !! 2%positive = Some nullptr /\
         returns (generic_smart_ptr.release 1%positive) m' (fun r' m'' =>
           r' = 4096 /\ log m'' = log m')).
Proof.
  split.
  - apply (proj1 (proj2 (proj1 move_transfers_ownership (list Z) POSIXFileDeleter))
             (two_wrappers 5 7 []) 1%positive 2%positive 5 7).
    + discriminate.
    + reflexivity.
    + reflexivity.
  - apply (proj1 (proj2 (proj2 (proj2 move_transfers_ownership (Z -> Z) GLibDeleter)))
             (two_wrappers 4096 4096 one_ref) 1%positive 2%positive 4096 4096).
    + discriminate.
    + reflexivity.
    + reflexivity.
Defined.

(** C3, as stated, fails for move assignment: assigning the wrapper at
    address 2 to the wrapper at address 1, which holds 4096, calls
    [release]. *)
Lemma move_assign_releases_old_value :
  ~ returns (generic_unique_ptr.move_assign
               1%positive 2%positive)
      (two_wrappers 4096 8192 one_ref) (fun _ m' =>
        count is_release (calls (log m')) = 0%nat).
Proof.
  intros (r & m' & Hrun & Hcount).
  vm_compute in Hrun. injection Hrun as _ <-.
  vm_compute in Hcount. discriminate Hcount.
Qed.

(** ** Copies of the shared pointer wrapper *)

(** Simplify a store after the temporary or the new object is gone. *)
Ltac store_eq :=
  repeat first
    [ rewrite delete_insert_eq
    | rewrite delete_insert_ne by eauto with heap
    | rewrite insert_insert_eq
    | rewrite delete_id by eauto with heap ];
  try reflexivity.

Section SharedCopy.
Context {E : Type} {GD : GenericDeleter.t E}.

(** C4: copying a shared pointer wrapper that holds a non-null pointer [p]
    calls [add_ref] exactly once, on [p], also when that call throws; once
    the copy exists, it and the original both return [p] from [get()], and
    destroying either one calls [release] exactly once, on [p].  Copying a
    null wrapper calls nothing. *)
Theorem copy_adds_one_reference (m : machine E) (a : loc) (p : Z) :
  heap m !! a = Some p ->
  (p = nullptr ->
     returns (generic_shared_ptr.copy_ctor a) m (fun b m' =>
       heap m !! b = None /\ log m' = log m /\ ext m' = ext m /\
       generic_smart_ptr.get a m' = Returns nullptr m' /\
       generic_smart_ptr.get b m' = Returns nullptr m'))
  /\ (p <> nullptr -> fst (GenericDeleter.add_ref p (ext m)) = Normal ->
        returns (generic_shared_ptr.copy_ctor a) m (fun b m' =>
          heap m !! b = None /\
          calls (log m') = calls (log m) ++ [AddRef p] /\
          ext m' = snd (GenericDeleter.add_ref p (ext m)) /\
          generic_smart_ptr.get a m' = Returns p m' /\
          generic_smart_ptr.get b m' = Returns p m' /\
          returns (generic_shared_ptr.dtor a) m' (fun _ m'' =>
            calls (log m'') = calls (log m') ++ [Release p]) /\
          returns (generic_shared_ptr.dtor b) m' (fun _ m'' =>
            calls (log m'') = calls (log m') ++ [Release p]) /\
          returns (do* generic_shared_ptr.dtor a in generic_shared_ptr.dtor b)
            m' (fun _ m'' =>
              calls (log m'') = calls (log m') ++ [Release p; Release p])))
  /\ (p <> nullptr -> fst (GenericDeleter.add_ref p (ext m)) = Thrown ->
        throws (generic_shared_ptr.copy_ctor a) m (fun m' =>
          heap m' = heap m /\
          calls (log m') = calls (log m) ++ [AddRef p; Release p])).
Proof.
  intros Ha. split; [|split].
  - intros ->. run. returned. repeat split; lookups; auto with heap.
  - intros Hp Hok. run. returned.
    rewrite !calls_app. repeat split; lookups; auto with heap.
    all: run; returned; rewrite ?calls_app, <- ?app_assoc; reflexivity.
  - intros Hp Hthrown. run. eexists. split; [reflexivity|]. cbn [heap log ext].
    rewrite !calls_app, <- app_assoc. split; [store_eq|reflexivity].
Qed.

End SharedCopy.

Lemma copy_adds_one_reference_witness :
  returns (generic_shared_ptr.copy_ctor 1%positive)
    (two_wrappers 4096 nullptr one_ref) (fun b m' =>
      heap (two_wrappers 4096 nullptr one_ref) !! b = None /\
      calls (log m') = calls [] ++ [AddRef 4096] /\
      ext m' = snd (GenericDeleter.add_ref 4096 one_ref) /\
      generic_smart_ptr.get 1%positive m' = Returns 4096 m' /\
      generic_smart_ptr.get b m' = Returns 4096 m' /\
      returns (generic_shared_ptr.dtor 1%positive) m' (fun _ m'' =>
        calls (log m'') = calls (log m') ++ [Release 4096]) /\
      returns (generic_shared_ptr.dtor b) m' (fun _ m'' =>
        calls (log m'') = calls (log m') ++ [Release 4096]) /\
      returns (do* generic_shared_ptr.dtor 1%positive in generic_shared_ptr.dtor b)
        m' (fun _ m'' =>
          calls (log m'') = calls (log m') ++ [Release 4096; Release 4096])).
Proof.
  apply (proj1 (proj2 (copy_adds_one_reference
           (two_wrappers 4096 nullptr one_ref) 1%positive 4096 eq_refl))).
  - discriminate.
  - reflexivity.
Defined.

Section SharedAssign.
Context {E : Type} {GD : GenericDeleter.t E}.

(** C5: copy assignment is a temporary copy, a swap with [*this], and the
    destruction of the temporary.  If [add_ref] throws during the copy, the
    assignment throws with every wrapper, [*this] included, as it was.  If
    the copy succeeds, [*this] holds the source's pointer, and a non-null
    pointer [old] held before is released exactly once, by the destructor
    of the temporary that now holds it. *)
Theorem copy_assign_strong_guarantee
  (m : machine E) (this other : loc) (old p : Z) :
  heap m !! this = Some old ->
  heap m !! other = Some p ->
  generic_shared_ptr.copy_assign this other =
    (let* tmp := generic_shared_ptr.copy_ctor other in
     do* generic_smart_ptr.swap tmp this in
     do* generic_shared_ptr.dtor tmp in
     ret this)
  /\ (p <> nullptr -> fst (GenericDeleter.add_ref p (ext m)) = Thrown ->
        throws (generic_shared_ptr.copy_assign this other) m (fun m' =>
          heap m' = heap m /\ heap m' !! this = Some old /\
          calls (log m') = calls (log m) ++ [AddRef p; Release p]))
  /\ (p = nullptr \/ fst (GenericDeleter.add_ref p (ext m)) = Normal ->
        returns (generic_shared_ptr.copy_assign this other) m (fun r m' =>
          r = this /\
          heap m' = <[this := p]> (heap m) /\
          calls (log m') =
            calls (log m) ++ add_refed p ++ released nullptr old /\
          (old <> nullptr ->
             exists (tmp : loc) (l : list event) (view : gmap positive Z),
               heap m !! tmp = None /\
               log m' = l ++ [Event (Release old) view] /\
               view !! tmp = Some old /\ view !! this = Some p /\
               count is_release (calls l) = count is_release (calls (log m))))).
Proof.
  intros Hthis Hother. split; [reflexivity|]. split.
  - intros Hp Hthrown. run. eexists. split; [reflexivity|]. cbn [heap log ext].
    rewrite !calls_app, <- app_assoc.
    repeat split; [store_eq | store_eq; assumption].
  - intros [-> | Hok]; run.
    all: returned.
    all: split; [reflexivity|]; split; [store_eq|].
    all: split; [rewrite ?calls_app, ?app_nil_r, <- ?app_assoc; reflexivity|].
    all: intros Hold; try congruence; eexists _, _, _.
    all: (split; [apply alloc_fresh|]); (split; [reflexivity|]).
    all: repeat split; lookups; auto.
    all: rewrite ?calls_app, ?count_app; cbn; lia.
Qed.


End SharedAssign.

Lemma copy_assign_strong_guarantee_witness :
  throws (generic_shared_ptr.copy_assign (GD := GLibDeleter_limit 1)
            1%positive 2%positive)
    (two_wrappers 4096 8192 one_ref) (fun m' =>
      heap m' = heap (two_wrappers 4096 8192 one_ref) /\
      heap m' !! 1%positive = Some 4096 /\
      calls (log m') = calls [] ++ [AddRef 8192; Release 8192])
  /\ returns (generic_shared_ptr.copy_assign 1%positive 2%positive)
       (two_wrappers 4096 8192 one_ref) (fun r m' =>
         r = 1%positive /\
         heap m' = <[1%positive := 8192]> (heap (two_wrappers 4096 8192 one_ref)) /\
         calls (log m') = calls [] ++ add_refed 8192 ++ released nullptr 4096 /\
         (4096 <> nullptr ->
            exists (tmp : loc) (l : list event) (view : gmap positive Z),
              heap (two_wrappers 4096 8192 one_ref) !! tmp = None /\
              log m' = l ++ [Event (Release 4096) view] /\
              view !! tmp = Some 4096 /\ view !! 1%positive = Some 8192 /\
              count is_release (calls l) = count is_release (calls []))).
Proof.
  split.
  - apply (proj1 (proj2 (copy_assign_strong_guarantee (GD := GLibDeleter_limit 1)
             (two_wrappers 4096 8192 one_ref) 1%positive 2%positive 4096 8192
             eq_refl eq_refl))).
    + discriminate.
    + reflexivity.
  - apply (proj2 (proj2 (copy_assign_strong_guarantee
             (two_wrappers 4096 8192 one_ref) 1%positive 2%positive 4096 8192
             eq_refl eq_refl))).
    right. reflexivity.
Defined.



(** ** [reset()], destruction and assignment of the null literal *)

Section HandleReset.
Context {E : Type} {HD : HandleDeleter.t E}.

Lemma unique_handle_reset_then_dtor :
  reset_then_dtor_releases_once HandleDeleter.null
    unique_handle.reset unique_handle.dtor.
Proof.
  intros m w v Hw. run.
  all: returned.
  all: rewrite ?calls_app, ?count_app, ?app_nil_r; cbn; split; [reflexivity|lia].
Qed.

Lemma unique_handle_dtor_as_reset :
  dtor_as_reset HandleDeleter.null unique_handle.reset unique_handle.dtor.
Proof.
  intros m w v Hw. run.
  all: returned; returned.
  all: rewrite ?calls_app; cbn; repeat split; store_eq.
Qed.

Lemma unique_handle_assign_nullptr_as_reset :
  assign_nullptr_as_reset HandleDeleter.null
    unique_handle.reset unique_handle.assign_nullptr.
Proof.
  intros m w v Hw. run.
  all: returned.
  all: rewrite ?calls_app, ?app_nil_r; repeat split; lookups; auto.
Qed.

End HandleReset.

Section PointerReset.
Context {E : Type} {GD : GenericDeleter.t E}.

Lemma generic_smart_ptr_reset_then_dtor :
  reset_then_dtor_releases_once (E := E) nullptr
    generic_smart_ptr.reset generic_smart_ptr.dtor.
Proof.
  intros m w v Hw. run.
  all: returned.
  all: rewrite ?calls_app, ?count_app, ?app_nil_r; cbn; split; [reflexivity|lia].
Qed.

Lemma generic_smart_ptr_dtor_as_reset :
  dtor_as_reset (E := E) nullptr generic_smart_ptr.reset generic_smart_ptr.dtor.
Proof.
  intros m w v Hw. run.
  all: returned; returned.
  all: rewrite ?calls_app; cbn; repeat split; store_eq.
Qed.

Lemma generic_smart_ptr_assign_nullptr_as_reset :
  assign_nullptr_as_reset (E := E) nullptr
    generic_smart_ptr.reset generic_smart_ptr.assign_nullptr.
Proof.
  intros m w v Hw. run.
  all: returned.
  all: rewrite ?calls_app, ?app_nil_r; repeat split; lookups; auto.
Qed.

End PointerReset.

(** C7: for the scalar handle wrapper and for the pointer wrappers, [reset()]
    followed by destruction calls [release] once in all when the wrapper
    held a value and not at all when it was null; and the destructor alone
    makes the calls that [reset()] makes, with the same effect on the
    policy's state. *)
Theorem reset_then_destroy_releases_at_most_once :
  (forall (E : Type) (HD : HandleDeleter.t E),
     reset_then_dtor_releases_once (E := E) HandleDeleter.null
       unique_handle.reset unique_handle.dtor
     /\ dtor_as_reset (E := E) HandleDeleter.null
          unique_handle.reset unique_handle.dtor)
  /\ (forall (E : Type) (GD : GenericDeleter.t E),
        (reset_then_dtor_releases_once (E := E) nullptr
           generic_smart_ptr.reset generic_unique_ptr.dtor
         /\ dtor_as_reset (E := E) nullptr
              generic_smart_ptr.reset generic_unique_ptr.dtor)
        /\ (reset_then_dtor_releases_once (E := E) nullptr
              generic_smart_ptr.reset generic_shared_ptr.dtor
            /\ dtor_as_reset (E := E) nullptr
                 generic_smart_ptr.reset generic_shared_ptr.dtor)).
Proof.
  split; intros E D.
  - split.
    + apply unique_handle_reset_then_dtor.
    + apply unique_handle_dtor_as_reset.
  - split; split.
    + exact generic_smart_ptr_reset_then_dtor.
    + exact generic_smart_ptr_dtor_as_reset.
    + exact generic_smart_ptr_reset_then_dtor.
    + exact generic_smart_ptr_dtor_as_reset.
Qed.

Lemma reset_then_destroy_releases_at_most_once_witness :
  returns (do* unique_handle.reset 1%positive HandleDeleter.null in
           unique_handle.dtor 1%positive)
    (two_wrappers 5 7 ([] : list Z)) (fun _ m' =>
      calls (log m') = calls [] ++ released HandleDeleter.null 5 /\
      (count is_release (calls (log m'))
       <= count is_release (calls []) + 1)%nat)
  /\ returns (generic_shared_ptr.dtor 1%positive)
       (two_wrappers 4096 nullptr one_ref) (fun _ md =>
         returns (generic_smart_ptr.reset 1%positive nullptr)
           (two_wrappers 4096 nullptr one_ref) (fun _ mr =>
             calls (log md) = calls (log mr) /\ ext md = ext mr /\
             heap md = delete 1%positive (heap mr))).
Proof.
  split.
  - apply (proj1 (proj1 reset_then_destroy_releases_at_most_once
             (list Z) POSIXFileDeleter) (two_wrappers 5 7 []) 1%positive 5).
    reflexivity.
  - apply (proj2 (proj2 (proj2 reset_then_destroy_releases_at_most_once
             (Z -> Z) GLibDeleter)) (two_wrappers 4096 nullptr one_ref)
             1%positive 4096).
    reflexivity.
Defined.

(** C10: for the scalar handle wrapper and for the pointer wrappers,
    [w = nullptr] ends in the state [w.reset()] ends in: a value that is
    not null is released exactly once, a null wrapper makes no call, and
    the wrapper is null afterwards. *)
Theorem assign_nullptr_resets :
  (forall (E : Type) (HD : HandleDeleter.t E),
     assign_nullptr_as_reset (E := E) HandleDeleter.null
       unique_handle.reset unique_handle.assign_nullptr)
  /\ (forall (E : Type) (GD : GenericDeleter.t E),
        assign_nullptr_as_reset (E := E) nullptr
          generic_smart_ptr.reset generic_smart_ptr.assign_nullptr).
Proof.
  split; intros E D.
  - apply unique_handle_assign_nullptr_as_reset.
  - apply generic_smart_ptr_assign_nullptr_as_reset.
Qed.

Lemma assign_nullptr_resets_witness :
  returns (unique_handle.assign_nullptr 1%positive)
    (two_wrappers 5 HandleDeleter.null ([] : list Z)) (fun r m' =>
      r = 1%positive /\
      unique_handle.reset 1%positive HandleDeleter.null
        (two_wrappers 5 HandleDeleter.null []) = Returns tt m' /\
      heap m' !! 1%positive = Some HandleDeleter.null /\
      calls (log m') = calls [] ++ released HandleDeleter.null 5)
  /\ returns (generic_smart_ptr.assign_nullptr 2%positive)
       (two_wrappers 4096 nullptr one_ref) (fun r m' =>
         r = 2%positive /\
         generic_smart_ptr.reset 2%positive nullptr
           (two_wrappers 4096 nullptr one_ref) = Returns tt m' /\
         heap m' !! 2%positive = Some nullptr /\
         calls (log m') = calls [] ++ released nullptr nullptr).
Proof.
  split.
  - apply (proj1 assign_nullptr_resets (list Z) POSIXFileDeleter
             (two_wrappers 5 HandleDeleter.null []) 1%positive 5).
    reflexivity.
  - apply (proj2 assign_nullptr_resets (Z -> Z) GLibDeleter
             (two_wrappers 4096 nullptr one_ref) 2%positive nullptr).
    reflexivity.
Defined.

(** ** Release is never called on null *)

Section NeverNull.
Context {E : Type}.

Lemma run_handle_op_never_null {HD : HandleDeleter.t E}
  (o : handle_op) (m : machine E) :
  never_releases HandleDeleter.null (log m) ->
  ends_with (run_handle_op o m)
    (fun m' => never_releases HandleDeleter.null (log m')).
Proof.
  intros Hm. unfold ends_with.
  destruct o; unfold run_handle_op, ignore; unfold_members;
    split_run; simplify_eq; cbn [heap log ext fst snd final negb] in *;
    eauto 6 with heap.
Qed.

Lemma run_pointer_op_never_null {GD : GenericDeleter.t E}
  (o : pointer_op) (m : machine E) :
  never_releases nullptr (log m) ->
  ends_with (run_pointer_op o m) (fun m' => never_releases nullptr (log m')).
Proof.
  intros Hm. unfold ends_with.
  destruct o; unfold run_pointer_op, ignore; unfold_members;
    split_run; simplify_eq; cbn [heap log ext fst snd final negb] in *;
    eauto 8 with heap.
Qed.

(** A property of the log that every command preserves is preserved by a
    sequence of commands. *)
Lemma run_all_preserves (P : machine E -> Prop) (cs : list (M E unit)) :
  Forall (fun c => forall m, P m -> ends_with (c m) P) cs ->
  forall m, P m -> ends_with (run_all cs m) P.
Proof.
  induction 1 as [|c cs Hc _ IH]; intros m Hm.
  - exact Hm.
  - cbn [run_all]. unfold bind. specialize (Hc m Hm).
    unfold ends_with in Hc |- *.
    destruct (c m) as [[] m1 | m1 |]; cbn [final] in *.
    + apply IH, Hc.
    + exact Hc.
    + exact I.
Qed.

End NeverNull.

(** C8: whatever sequence of operations is applied to scalar handle
    wrappers, or to pointer wrappers, and from whatever state, no call of
    the policy's [release] is made on the null value: if no earlier call
    was, none is when the sequence ends, normally or by an exception. *)
Theorem release_never_called_on_null :
  (forall (E : Type) (HD : HandleDeleter.t E)
          (os : list handle_op) (m : machine E),
     never_releases HandleDeleter.null (log m) ->
     ends_with (run_handle_ops os m)
       (fun m' => never_releases HandleDeleter.null (log m')))
  /\ (forall (E : Type) (GD : GenericDeleter.t E)
             (os : list pointer_op) (m : machine E),
        never_releases nullptr (log m) ->
        ends_with (run_pointer_ops os m)
          (fun m' => never_releases nullptr (log m'))).
Proof.
  split; intros E D os m Hm.
  - apply (run_all_preserves
             (fun m' => never_releases HandleDeleter.null (log m'))); [|exact Hm].
    apply Forall_map, Forall_forall. intros o _ m0.
    apply run_handle_op_never_null.
  - apply (run_all_preserves
             (fun m' => never_releases nullptr (log m'))); [|exact Hm].
    apply Forall_map, Forall_forall. intros o _ m0.
    apply run_pointer_op_never_null.
Qed.

Lemma release_never_called_on_null_witness :
  ends_with
    (run_pointer_ops
       [PCtor 4096; PCtorDefault; PCopyCtor 1%positive;
        PMoveAssign 2%positive 1%positive; PReset 2%positive nullptr;
        PAssignNullptr 1%positive; PDtor 1%positive; PDtor 2%positive;
        PDtor 3%positive]
       (Machine ∅ [] one_ref))
    (fun m' => never_releases nullptr (log m'))
  /\ calls_made
       (run_pointer_ops
          [PCtor 4096; PCtorDefault; PCopyCtor 1%positive;
           PMoveAssign 2%positive 1%positive; PReset 2%positive nullptr;
           PAssignNullptr 1%positive; PDtor 1%positive; PDtor 2%positive;
           PDtor 3%positive]
          (Machine ∅ [] one_ref))
     = [AddRef 4096; Release 4096; Release 4096].
Proof.
  split.
  - apply (proj2 release_never_called_on_null (Z -> Z) GLibDeleter).
    constructor.
  - vm_compute. reflexivity.
Defined.

(** ** Comparison and hashing *)

Section HandleCompare.
Context {E : Type} {HD : HandleDeleter.t E}.

Lemma unique_handle_eq_by_raw_value :
  eq_by_raw_value (E := E) unique_handle.operator_eq unique_handle.get.
Proof.
  intros m a b x y Ha Hb. run; repeat split; eauto.
  all: eexists; split; [reflexivity|]; split; congruence.
Qed.

Lemma unique_handle_hash_by_raw_value :
  hash_by_raw_value (E := E) unique_handle.operator_eq unique_handle.hash.
Proof.
  intros std_hash m a b x y Ha Hb. run; repeat split; congruence.
Qed.

End HandleCompare.

Section PointerCompare.
Context {E : Type} {GD : GenericDeleter.t E}.

Lemma generic_unique_ptr_eq_by_raw_value :
  eq_by_raw_value (E := E) generic_unique_ptr.operator_eq generic_smart_ptr.get.
Proof.
  intros m a b x y Ha Hb. run; repeat split; eauto.
  all: eexists; split; [reflexivity|]; split; congruence.
Qed.

Lemma generic_shared_ptr_eq_by_raw_value :
  eq_by_raw_value (E := E) generic_shared_ptr.operator_eq generic_smart_ptr.get.
Proof.
  intros m a b x y Ha Hb. run; repeat split; eauto.
  all: eexists; split; [reflexivity|]; split; congruence.
Qed.

(** The hash of the pointer wrappers, as written, reads no wrapper: its
    value is the standard hash of what the member [get] of its argument, an
    object of the pointee type, returns. *)
Lemma generic_ptr_hash_reads_pointee
  (std_hash : Z -> Z) (k x : Z) (m : machine E) :
  generic_unique_ptr.hash std_hash (fun _ => ret k) x m = Returns (std_hash k) m
  /\ generic_shared_ptr.hash std_hash (fun _ => ret k) x m
     = Returns (std_hash k) m.
Proof. split; reflexivity. Qed.

End PointerCompare.

(** C9, as far as the code supports it: for the scalar handle, the
    exclusive pointer and the shared pointer wrapper, [a == b] is true
    exactly when [a.get()] and [b.get()] are equal; and the hash of a
    scalar handle wrapper is the standard hash of [get()], so that equal
    handle wrappers have equal hashes.  The hash of the pointer wrappers
    takes no wrapper and is not covered. *)
Theorem comparison_by_raw_value :
  (forall (E : Type) (HD : HandleDeleter.t E),
     eq_by_raw_value (E := E) unique_handle.operator_eq unique_handle.get
     /\ hash_by_raw_value (E := E) unique_handle.operator_eq unique_handle.hash)
  /\ (forall (E : Type) (GD : GenericDeleter.t E),
        eq_by_raw_value (E := E)
          generic_unique_ptr.operator_eq generic_smart_ptr.get
        /\ eq_by_raw_value (E := E)
             generic_shared_ptr.operator_eq generic_smart_ptr.get).
Proof.
  split; intros E D; split.
  - apply unique_handle_eq_by_raw_value.
  - apply unique_handle_hash_by_raw_value.
  - apply generic_unique_ptr_eq_by_raw_value.
  - apply generic_shared_ptr_eq_by_raw_value.
Qed.

Lemma comparison_by_raw_value_witness :
  generic_smart_ptr.get 1%positive (two_wrappers 4096 4096 one_ref)
    = Returns 4096 (two_wrappers 4096 4096 one_ref)
  /\ generic_smart_ptr.get 2%positive (two_wrappers 4096 4096 one_ref)
     = Returns 4096 (two_wrappers 4096 4096 one_ref)
  /\ exists r : bool,
       generic_unique_ptr.operator_eq 1%positive 2%positive
         (two_wrappers 4096 4096 one_ref)
       = Returns r (two_wrappers 4096 4096 one_ref)
       /\ (r = true <-> 4096 = 4096).
Proof.
  apply (proj1 (proj2 comparison_by_raw_value (Z -> Z) GLibDeleter)
           (two_wrappers 4096 4096 one_ref) 1%positive 2%positive 4096 4096).
  - reflexivity.
  - reflexivity.
Defined.

(** * Further properties of the library *)

(** ** [release()], [reset], construction, [swap], comparisons *)

(** Two stores are equal when they agree at [a], at [b] and elsewhere. *)
Ltac store_ext a b :=
  apply map_eq; intros ?i;
  destruct (decide (i = a)) as [->|?];
    [|destruct (decide (i = b)) as [->|?]];
  repeat first
    [ rewrite lookup_insert_eq
    | rewrite lookup_insert_ne by congruence ];
  congruence.

(** The six comparisons of two held values, from [x =? y], [x <? y] and
    [y <? x]. *)
Ltac compare_values x y :=
  rewrite ?Z.gtb_ltb, ?Z.geb_leb;
  rewrite ?(Z.leb_antisym x y), ?(Z.leb_antisym y x);
  exists (x =? y), (x <? y), (y <? x);
  destruct (Z.eqb_spec x y), (Z.ltb_spec x y), (Z.ltb_spec y x); try lia;
  repeat split; try reflexivity; try lia; try discriminate; auto.

Section HandleMore.
Context {E : Type} {HD : HandleDeleter.t E}.

Lemma unique_handle_release_hands_over :
  release_hands_over (E := E) HandleDeleter.null
    unique_handle.dtor unique_handle.operator_bool unique_handle.release.
Proof.
  intros m w v Hw. run. returned.
  do 4 (split; [reflexivity|]). split.
  - run. reflexivity.
  - run. returned. repeat split. store_eq.
Qed.

Lemma unique_handle_reset_stores_and_releases :
  reset_stores_and_releases (E := E) HandleDeleter.null
    unique_handle.get unique_handle.reset.
Proof.
  intros m w old new Hw. run.
  all: returned.
  all: rewrite ?calls_app, ?app_nil_r; repeat split; lookups; auto.
Qed.

Lemma unique_handle_ctor_then_dtor_releases :
  ctor_then_dtor_releases (E := E) HandleDeleter.null
    unique_handle.ctor_default unique_handle.ctor unique_handle.dtor.
Proof.
  intros m v. split; run.
  all: returned.
  all: rewrite ?calls_app, ?app_nil_r; repeat split; store_eq.
Qed.

Lemma unique_handle_swap_exchanges :
  swap_exchanges (E := E) unique_handle.get std.swap_unique_handle.
Proof.
  intros m a b x y Ha Hb. unfold std.swap_unique_handle.
  destruct (decide (a = b)) as [->|Hab].
  - assert (x = y) by congruence. subst y.
    run. returned. split; [reflexivity|]. repeat split; lookups; auto.
    run. returned. repeat split. store_ext b b.
  - assert (Hba : b <> a) by congruence.
    run. returned. split; [store_ext a b|]. repeat split; lookups; auto.
    run. returned. repeat split. store_ext a b.
Qed.

Lemma unique_handle_comparisons_agree :
  comparisons_agree (E := E)
    unique_handle.operator_eq unique_handle.operator_ne
    unique_handle.operator_ge unique_handle.operator_le
    unique_handle.operator_gt unique_handle.operator_lt.
Proof.
  intros m a b x y Ha Hb. exec. compare_values x y.
Qed.

Lemma unique_handle_bool_iff_not_null :
  bool_iff_not_null (E := E) HandleDeleter.null
    unique_handle.get unique_handle.operator_bool.
Proof.
  intros m w v Hw. exec. eexists. do 2 (split; [reflexivity|]).
  destruct (Z.eqb_spec v HandleDeleter.null); cbn; split; congruence.
Qed.

End HandleMore.

Section PointerMore.
Context {E : Type} {GD : GenericDeleter.t E}.

Lemma generic_smart_ptr_release_hands_over :
  release_hands_over (E := E) nullptr
    generic_smart_ptr.dtor generic_smart_ptr.operator_bool
    generic_smart_ptr.release.
Proof.
  intros m w v Hw. run. returned.
  do 4 (split; [reflexivity|]). split.
  - run. reflexivity.
  - run. returned. repeat split. store_eq.
Qed.

Lemma generic_smart_ptr_reset_stores_and_releases :
  reset_stores_and_releases (E := E) nullptr
    generic_smart_ptr.get generic_smart_ptr.reset.
Proof.
  intros m w old new Hw. run.
  all: returned.
  all: rewrite ?calls_app, ?app_nil_r; repeat split; lookups; auto.
Qed.

Lemma generic_smart_ptr_ctor_then_dtor_releases :
  ctor_then_dtor_releases (E := E) nullptr
    generic_smart_ptr.ctor_default generic_smart_ptr.ctor
    generic_smart_ptr.dtor.
Proof.
  intros m v. split; run.
  all: returned.
  all: rewrite ?calls_app, ?app_nil_r; repeat split; store_eq.
Qed.

Lemma generic_smart_ptr_swap_exchanges :
  swap_exchanges (E := E) generic_smart_ptr.get std.swap_generic_ptr.
Proof.
  intros m a b x y Ha Hb. unfold std.swap_generic_ptr.
  destruct (decide (a = b)) as [->|Hab].
  - assert (x = y) by congruence. subst y.
    run. returned. split; [reflexivity|]. repeat split; lookups; auto.
    run. returned. repeat split. store_ext b b.
  - assert (Hba : b <> a) by congruence.
    run. returned. split; [store_ext a b|]. repeat split; lookups; auto.
    run. returned. repeat split. store_ext a b.
Qed.

Lemma generic_unique_ptr_comparisons_agree :
  comparisons_agree (E := E)
    generic_unique_ptr.operator_eq generic_unique_ptr.operator_ne
    generic_unique_ptr.operator_ge generic_unique_ptr.operator_le
    generic_unique_ptr.operator_gt generic_unique_ptr.operator_lt.
Proof.
  intros m a b x y Ha Hb. exec. compare_values x y.
Qed.

Lemma generic_shared_ptr_comparisons_agree :
  comparisons_agree (E := E)
    generic_shared_ptr.operator_eq generic_shared_ptr.operator_ne
    generic_shared_ptr.operator_ge generic_shared_ptr.operator_le
    generic_shared_ptr.operator_gt generic_shared_ptr.operator_lt.
Proof.
  intros m a b x y Ha Hb. exec. compare_values x y.
Qed.

Lemma generic_smart_ptr_bool_iff_not_null :
  bool_iff_not_null (E := E) nullptr
    generic_smart_ptr.get generic_smart_ptr.operator_bool.
Proof.
  intros m w v Hw. exec. eexists. do 2 (split; [reflexivity|]).
  destruct (Z.eqb_spec v nullptr); cbn; split; congruence.
Qed.

End PointerMore.


(** X1: [release()] of a scalar handle or pointer wrapper returns the held
    value, leaves the wrapper null, and calls nothing; destroying the
    wrapper afterwards calls nothing either. *)
Theorem release_transfers_to_caller :
  (forall (E : Type) (HD : HandleDeleter.t E),
     release_hands_over (E := E) HandleDeleter.null
       unique_handle.dtor unique_handle.operator_bool unique_handle.release)
  /\ (forall (E : Type) (GD : GenericDeleter.t E),
        release_hands_over (E := E) nullptr
          generic_smart_ptr.dtor generic_smart_ptr.operator_bool
          generic_smart_ptr.release).
Proof.
  split; intros E D.
  - apply unique_handle_release_hands_over.
  - apply generic_smart_ptr_release_hands_over.
Qed.

Lemma release_transfers_to_caller_witness :
  returns (unique_handle.release 1%positive)
    (two_wrappers 5 7 ([] : list Z)) (fun r m' =>
      r = 5 /\
      heap m' = <[1%positive := HandleDeleter.null]>
                  (heap (two_wrappers 5 7 ([] : list Z))) /\
      log m' = [] /\ ext m' = [] /\
      unique_handle.operator_bool 1%positive m' = Returns false m' /\
      returns (unique_handle.dtor 1%positive) m' (fun _ m'' =>
        heap m'' = delete 1%positive (heap (two_wrappers 5 7 ([] : list Z))) /\
        log m'' = [] /\ ext m'' = [])).
Proof.
  apply (proj1 release_transfers_to_caller (list Z) POSIXFileDeleter
           (two_wrappers 5 7 []) 1%positive 5).
  reflexivity.
Defined.

(** X2: [reset(new)] of a scalar handle or pointer wrapper leaves the
    wrapper holding [new] and releases the value held before exactly once,
    unless that value was null; this includes a wrapper reset to the value
    it already holds, which is released and still held. *)
Theorem reset_stores_new_releases_old :
  (forall (E : Type) (HD : HandleDeleter.t E),
     reset_stores_and_releases (E := E) HandleDeleter.null
       unique_handle.get unique_handle.reset)
  /\ (forall (E : Type) (GD : GenericDeleter.t E),
        reset_stores_and_releases (E := E) nullptr
          generic_smart_ptr.get generic_smart_ptr.reset).
Proof.
  split; intros E D.
  - apply unique_handle_reset_stores_and_releases.
  - apply generic_smart_ptr_reset_stores_and_releases.
Qed.

Lemma reset_stores_new_releases_old_witness :
  returns (generic_smart_ptr.reset 1%positive 4096)
    (two_wrappers 4096 nullptr one_ref) (fun _ m' =>
      heap m' = <[1%positive := 4096]> (heap (two_wrappers 4096 nullptr one_ref)) /\
      calls (log m') = calls [] ++ released nullptr 4096 /\
      generic_smart_ptr.get 1%positive m' = Returns 4096 m').
Proof.
  apply (proj2 reset_stores_new_releases_old (Z -> Z) GLibDeleter
           (two_wrappers 4096 nullptr one_ref) 1%positive 4096 4096).
  reflexivity.
Defined.

(** X3: a scalar handle or pointer wrapper constructed from a value and
    then destroyed releases that value exactly once, unless it is null,
    makes no other call and leaves the store as it was; a default
    constructed wrapper that is destroyed calls nothing. *)
Theorem construct_then_destroy_releases_once :
  (forall (E : Type) (HD : HandleDeleter.t E),
     ctor_then_dtor_releases (E := E) HandleDeleter.null
       unique_handle.ctor_default unique_handle.ctor unique_handle.dtor)
  /\ (forall (E : Type) (GD : GenericDeleter.t E),
        ctor_then_dtor_releases (E := E) nullptr
          generic_unique_ptr.ctor_default generic_unique_ptr.ctor
          generic_unique_ptr.dtor
        /\ ctor_then_dtor_releases (E := E) nullptr
             generic_shared_ptr.ctor_default generic_shared_ptr.ctor
             generic_shared_ptr.dtor).
Proof.
  split; intros E D.
  - apply unique_handle_ctor_then_dtor_releases.
  - split; exact generic_smart_ptr_ctor_then_dtor_releases.
Qed.

(** X4: [swap], as a member and as [std::swap], exchanges the values of two
    wrappers (or keeps the value when both are the same wrapper) and calls
    nothing; swapping a second time restores the state. *)
Theorem swap_exchanges_without_calls :
  (forall (E : Type) (HD : HandleDeleter.t E),
     swap_exchanges (E := E) unique_handle.get std.swap_unique_handle)
  /\ (forall (E : Type) (GD : GenericDeleter.t E),
        swap_exchanges (E := E) generic_smart_ptr.get std.swap_generic_ptr).
Proof.
  split; intros E D.
  - apply unique_handle_swap_exchanges.
  - apply generic_smart_ptr_swap_exchanges.
Qed.

Lemma swap_exchanges_without_calls_witness :
  returns (std.swap_generic_ptr 1%positive 2%positive)
    (two_wrappers 4096 8192 one_ref) (fun _ m' =>
      heap m' = <[1%positive := 8192]>
                  (<[2%positive := 4096]> (heap (two_wrappers 4096 8192 one_ref))) /\
      log m' = [] /\ ext m' = one_ref /\
      generic_smart_ptr.get 1%positive m' = Returns 8192 m' /\
      generic_smart_ptr.get 2%positive m' = Returns 4096 m' /\
      returns (std.swap_generic_ptr 1%positive 2%positive) m' (fun _ m'' =>
        heap m'' = heap (two_wrappers 4096 8192 one_ref) /\
        log m'' = [] /\ ext m'' = one_ref)).
Proof.
  apply (proj2 swap_exchanges_without_calls (Z -> Z) GLibDeleter
           (two_wrappers 4096 8192 one_ref) 1%positive 2%positive 4096 8192).
  - reflexivity.
  - reflexivity.
Defined.

(** X5: the six comparison operators of the scalar handle, exclusive
    pointer and shared pointer wrappers read only the two held values and
    agree with one another: exactly one of [a < b], [a == b], [a > b] is
    true, [!=] is the negation of [==], [>=] of [<], [<=] of [>], and
    [a > b] is [b < a]. *)
Theorem comparisons_form_a_total_order :
  (forall (E : Type) (HD : HandleDeleter.t E),
     comparisons_agree (E := E)
       unique_handle.operator_eq unique_handle.operator_ne
       unique_handle.operator_ge unique_handle.operator_le
       unique_handle.operator_gt unique_handle.operator_lt)
  /\ (forall (E : Type) (GD : GenericDeleter.t E),
        comparisons_agree (E := E)
          generic_unique_ptr.operator_eq generic_unique_ptr.operator_ne
          generic_unique_ptr.operator_ge generic_unique_ptr.operator_le
          generic_unique_ptr.operator_gt generic_unique_ptr.operator_lt
        /\ comparisons_agree (E := E)
             generic_shared_ptr.operator_eq generic_shared_ptr.operator_ne
             generic_shared_ptr.operator_ge generic_shared_ptr.operator_le
             generic_shared_ptr.operator_gt generic_shared_ptr.operator_lt).
Proof.
  split; intros E D.
  - apply unique_handle_comparisons_agree.
  - split.
    + apply generic_unique_ptr_comparisons_agree.
    + apply generic_shared_ptr_comparisons_agree.
Qed.

Lemma comparisons_form_a_total_order_witness :
  exists e l g : bool,
    unique_handle.operator_eq 1%positive 2%positive
      (two_wrappers 5 7 ([] : list Z)) = Returns e (two_wrappers 5 7 []) /\
    unique_handle.operator_lt 1%positive 2%positive
      (two_wrappers 5 7 ([] : list Z)) = Returns l (two_wrappers 5 7 []) /\
    unique_handle.operator_gt 1%positive 2%positive
      (two_wrappers 5 7 ([] : list Z)) = Returns g (two_wrappers 5 7 []) /\
    unique_handle.operator_ne 1%positive 2%positive
      (two_wrappers 5 7 ([] : list Z)) = Returns (negb e) (two_wrappers 5 7 []) /\
    unique_handle.operator_ge 1%positive 2%positive
      (two_wrappers 5 7 ([] : list Z)) = Returns (negb l) (two_wrappers 5 7 []) /\
    unique_handle.operator_le 1%positive 2%positive
      (two_wrappers 5 7 ([] : list Z)) = Returns (negb g) (two_wrappers 5 7 []) /\
    unique_handle.operator_lt 2%positive 1%positive
      (two_wrappers 5 7 ([] : list Z)) = Returns g (two_wrappers 5 7 []) /\
    (l = true <-> 5 < 7) /\ (e = true <-> 5 = 7) /\ (g = true <-> 7 < 5) /\
    ((l = true /\ e = false /\ g = false)
     \/ (l = false /\ e = true /\ g = false)
     \/ (l = false /\ e = false /\ g = true)).
Proof.
  apply (proj1 comparisons_form_a_total_order (list Z) POSIXFileDeleter
           (two_wrappers 5 7 []) 1%positive 2%positive 5 7).
  - reflexivity.
  - reflexivity.
Defined.

(** X6: for the scalar handle and the pointer wrappers the boolean
    conversion is true exactly when [get()] is not the null value. *)
Theorem bool_conversion_iff_not_null :
  (forall (E : Type) (HD : HandleDeleter.t E),
     bool_iff_not_null (E := E) HandleDeleter.null
       unique_handle.get unique_handle.operator_bool)
  /\ (forall (E : Type) (GD : GenericDeleter.t E),
        bool_iff_not_null (E := E) nullptr
          generic_smart_ptr.get generic_smart_ptr.operator_bool).
Proof.
  split; intros E D.
  - apply unique_handle_bool_iff_not_null.
  - apply generic_smart_ptr_bool_iff_not_null.
Qed.

Lemma bool_conversion_iff_not_null_witness :
  exists b : bool,
    unique_handle.operator_bool 1%positive
      (two_wrappers (-1) 7 ([] : list Z)) = Returns b (two_wrappers (-1) 7 []) /\
    unique_handle.get 1%positive
      (two_wrappers (-1) 7 ([] : list Z)) = Returns (-1) (two_wrappers (-1) 7 []) /\
    (b = true <-> -1 <> HandleDeleter.null).
Proof.
  apply (proj1 bool_conversion_iff_not_null (list Z) POSIXFileDeleter
           (two_wrappers (-1) 7 []) 1%positive (-1)).
  reflexivity.
Defined.

(** ** Conservation of references *)

Lemma holders_insert_fresh (p : Z) (h : gmap positive Z) (l : positive) (v : Z) :
  h !! l = None -> holders p (<[l := v]> h) = holds p v + holders p h.
Proof.
  intros Hl. unfold holders.
  rewrite map_fold_insert_L; [reflexivity | intros; lia | exact Hl].
Qed.

Lemma holders_delete (p : Z) (h : gmap positive Z) (l : positive) :
  holders p (delete l h) = holders p h - held p (h !! l).
Proof.
  destruct (h !! l) as [u|] eqn:Hl; cbn [held].
  - rewrite <- (insert_delete_id h l u Hl) at 2.
    rewrite holders_insert_fresh by apply lookup_delete_eq. lia.
  - rewrite delete_id by exact Hl. lia.
Qed.

Lemma holders_insert (p : Z) (h : gmap positive Z) (l : positive) (v : Z) :
  holders p (<[l := v]> h) = holders p h - held p (h !! l) + holds p v.
Proof.
  rewrite <- insert_delete_eq.
  rewrite holders_insert_fresh by apply lookup_delete_eq.
  rewrite holders_delete. lia.
Qed.

Lemma holders_nonneg (p : Z) (h : gmap positive Z) : 0 <= holders p h.
Proof.
  induction h as [|l v h Hl IH] using map_ind.
  - unfold holders. rewrite map_fold_empty. lia.
  - rewrite holders_insert_fresh by exact Hl.
    unfold holds. destruct (v =? p); lia.
Qed.

Lemma Forall_of_forallb {A} (f : A -> bool) (P : A -> Prop) (l : list A) :
  (forall x, f x = true -> P x) -> forallb f l = true -> Forall P l.
Proof.
  intros Hf. induction l as [|x l IH]; cbn [forallb]; intros Hl.
  - constructor.
  - apply andb_prop in Hl as [Hx Hl]. constructor; auto.
Qed.

(** Compute the balance of the state a run ends in. *)
Ltac account :=
  unfold balance; cbn [heap log ext];
  rewrite ?calls_app, ?count_app;
  cbn [calls map count ev_call releases add_refs];
  repeat first [rewrite holders_insert | rewrite holders_delete];
  lookups; rewrite ?alloc_fresh; lookups; cbn [held]; unfold holds;
  repeat match goal with
         | |- context [Z.eqb ?a ?b] => destruct (Z.eqb_spec a b)
         end;
  try congruence; try lia.

(** The objects an operation uses are live, or the run is undefined. *)
Ltac live l :=
  match goal with
  | m : machine _ |- _ =>
      let v := fresh "v" in let H := fresh "Hlive" in
      destruct (heap m !! l) as [v|] eqn:H; [|exec; exact I]
  end.

(** The same for the source of a copy, with the two ways [add_ref] on its
    value can end. *)
Ltac live_source l :=
  match goal with
  | m : machine _ |- _ =>
      let v := fresh "v" in let H := fresh "Hlive" in
      destruct (heap m !! l) as [v|] eqn:H;
      [destruct (fst (GenericDeleter.add_ref v (ext m))) eqn:? | exec; exact I]
  end.

Section Conservation.
Context {E : Type}.

Lemma run_handle_op_keeps_balance {HD : HandleDeleter.t E}
  (p : Z) (o : handle_op) (m : machine E) :
  p <> HandleDeleter.null ->
  keeps_handles o = true ->
  ends_with (run_handle_op o m) (fun m' => balance p m' = balance p m).
Proof.
  intros Hp Hkeep. unfold ends_with.
  destruct o; cbn [keeps_handles] in Hkeep; try discriminate;
    try apply Z.eqb_eq in Hkeep; subst; unfold run_handle_op, ignore.
  - run. cbn [final]. account.
  - run. cbn [final]. account.
  - live other. run. cbn [final]. account.
  - live this. run; cbn [final]; account.
  - live this. run. reflexivity.
  - live this. run; reflexivity.
  - live this. run; cbn [final]; account.
  - destruct (decide (this = other)) as [->|Hne].
    + live other. run; cbn [final]; account.
    + assert (other <> this) by congruence.
      live other. live this. run; cbn [final]; account.
  - live this. run; cbn [final]; account.
  - destruct (decide (this = other)) as [->|Hne].
    + live other. run; cbn [final]; account.
    + assert (other <> this) by congruence.
      live this. live other. run; cbn [final]; account.
  - live a. live b. run; reflexivity.
  - live a. live b. run; reflexivity.
Qed.

Lemma run_pointer_op_keeps_balance {GD : GenericDeleter.t E}
  (p : Z) (o : pointer_op) (m : machine E) :
  p <> nullptr ->
  keeps_pointers o = true ->
  ends_with (run_pointer_op o m) (fun m' => balance p m' = balance p m).
Proof.
  intros Hp Hkeep. unfold ends_with.
  destruct o; cbn [keeps_pointers] in Hkeep; try discriminate;
    try apply Z.eqb_eq in Hkeep; subst; unfold run_pointer_op, ignore.
  - run. cbn [final]. account.
  - run. cbn [final]. account.
  - live other. run. cbn [final]. account.
  - live_source other. all: run; cbn [final]; account.
  - live this. run; cbn [final]; account.
  - live this. run. reflexivity.
  - live this. run; reflexivity.
  - live this. run; cbn [final]; account.
  - destruct (decide (this = other)) as [->|Hne].
    + live other. run; cbn [final]; account.
    + assert (other <> this) by congruence.
      live other. live this. run; cbn [final]; account.
  - destruct (decide (this = other)) as [->|Hne].
    + live_source other. all: run; cbn [final]; account.
    + assert (other <> this) by congruence.
      live_source other.
      all: destruct (heap m !! this) as [u|] eqn:Hthis;
        [|destruct (decide (this = fresh (dom (heap m)))) as [->|Hfresh];
          [|assert (fresh (dom (heap m)) <> this) by congruence]].
      all: run; cbn [final]; try exact I; account.
  - live this. run; cbn [final]; account.
  - destruct (decide (this = other)) as [->|Hne].
    + live other. run; cbn [final]; account.
    + assert (other <> this) by congruence.
      live this. live other. run; cbn [final]; account.
  - live this. run; reflexivity.
  - live a. live b. run; reflexivity.
  - live a. run; reflexivity.
  - live a. run; reflexivity.
Qed.

End Conservation.

Lemma ends_with_impl {E A} (r : outcome E A) (P Q : machine E -> Prop) :
  (forall m, P m -> Q m) -> ends_with r P -> ends_with r Q.
Proof. intros HPQ. unfold ends_with. destruct (final r); auto. Qed.

Section ConservationRuns.
Context {E : Type}.

Lemma run_handle_ops_keep_balance {HD : HandleDeleter.t E}
  (p : Z) (os : list handle_op) (m : machine E) :
  p <> HandleDeleter.null ->
  forallb keeps_handles os = true ->
  ends_with (run_handle_ops os m) (fun m' => balance p m' = balance p m).
Proof.
  intros Hp Hos.
  apply (run_all_preserves (fun m' => balance p m' = balance p m));
    [|reflexivity].
  apply Forall_map.
  apply (Forall_of_forallb keeps_handles); [|exact Hos].
  intros o Ho m0 Hm0.
  apply (ends_with_impl _ (fun m' => balance p m' = balance p m0));
    [intros; congruence|].
  apply run_handle_op_keeps_balance; assumption.
Qed.

Lemma run_pointer_ops_keep_balance {GD : GenericDeleter.t E}
  (p : Z) (os : list pointer_op) (m : machine E) :
  p <> nullptr ->
  forallb keeps_pointers os = true ->
  ends_with (run_pointer_ops os m) (fun m' => balance p m' = balance p m).
Proof.
  intros Hp Hos.
  apply (run_all_preserves (fun m' => balance p m' = balance p m));
    [|reflexivity].
  apply Forall_map.
  apply (Forall_of_forallb keeps_pointers); [|exact Hos].
  intros o Ho m0 Hm0.
  apply (ends_with_impl _ (fun m' => balance p m' = balance p m0));
    [intros; congruence|].
  apply run_pointer_op_keeps_balance; assumption.
Qed.

(** Only copies call [add_ref]. *)
Lemma run_handle_op_adds_no_ref {HD : HandleDeleter.t E}
  (o : handle_op) (m : machine E) :
  ends_with (run_handle_op o m) (fun m' =>
    count is_add_ref (calls (log m')) = count is_add_ref (calls (log m))).
Proof.
  unfold ends_with.
  destruct o; unfold run_handle_op, ignore; unfold_members;
    split_run; simplify_eq; cbn [heap log ext fst snd final negb] in *;
    rewrite ?calls_app, ?count_app; cbn; try exact I; lia.
Qed.

Lemma run_pointer_op_adds_no_ref {GD : GenericDeleter.t E}
  (o : pointer_op) (m : machine E) :
  copies o = false ->
  ends_with (run_pointer_op o m) (fun m' =>
    count is_add_ref (calls (log m')) = count is_add_ref (calls (log m))).
Proof.
  intros Ho. unfold ends_with.
  destruct o; try discriminate Ho; unfold run_pointer_op, ignore;
    unfold_members;
    split_run; simplify_eq; cbn [heap log ext fst snd final negb] in *;
    rewrite ?calls_app, ?count_app; cbn; try exact I; lia.
Qed.

Lemma run_handle_ops_add_no_ref {HD : HandleDeleter.t E}
  (os : list handle_op) (m : machine E) :
  ends_with (run_handle_ops os m) (fun m' =>
    count is_add_ref (calls (log m')) = count is_add_ref (calls (log m))).
Proof.
  apply (run_all_preserves (fun m' =>
    count is_add_ref (calls (log m')) = count is_add_ref (calls (log m))));
    [|reflexivity].
  apply Forall_map, Forall_forall. intros o _ m0 Hm0.
  apply (ends_with_impl _ (fun m' =>
    count is_add_ref (calls (log m')) = count is_add_ref (calls (log m0))));
    [intros; congruence|].
  apply run_handle_op_adds_no_ref.
Qed.

Lemma run_pointer_ops_add_no_ref {GD : GenericDeleter.t E}
  (os : list pointer_op) (m : machine E) :
  forallb (fun o => negb (copies o)) os = true ->
  ends_with (run_pointer_ops os m) (fun m' =>
    count is_add_ref (calls (log m')) = count is_add_ref (calls (log m))).
Proof.
  intros Hos.
  apply (run_all_preserves (fun m' =>
    count is_add_ref (calls (log m')) = count is_add_ref (calls (log m))));
    [|reflexivity].
  apply Forall_map.
  apply (Forall_of_forallb (fun o => negb (copies o))); [|exact Hos].
  intros o Ho m0 Hm0.
  apply (ends_with_impl _ (fun m' =>
    count is_add_ref (calls (log m')) = count is_add_ref (calls (log m0))));
    [intros; congruence|].
  apply run_pointer_op_adds_no_ref. apply negb_true_iff. exact Ho.
Qed.

End ConservationRuns.

Lemma count_add_refs_le (p : Z) (l : list call) :
  (count (add_refs p) l <= count is_add_ref l)%nat.
Proof.
  induction l as [|c l IH]; cbn [count]; [lia|].
  destruct c as [v|v]; cbn [add_refs is_add_ref]; [lia|].
  destruct (v =? p); lia.
Qed.

Lemma ends_with_and {E A} (r : outcome E A) (P Q : machine E -> Prop) :
  ends_with r P -> ends_with r Q -> ends_with r (fun m => P m /\ Q m).
Proof. unfold ends_with. destruct (final r); auto. Qed.

Lemma forallb_moves_only (os : list pointer_op) :
  forallb moves_only os = true ->
  forallb keeps_pointers os = true
  /\ forallb (fun o => negb (copies o)) os = true.
Proof.
  induction os as [|o os IH]; cbn [forallb]; [auto|].
  unfold moves_only at 1. intros H.
  apply andb_prop in H as [Ho Hos]. apply andb_prop in Ho as [Hk Hc].
  destruct (IH Hos) as [IH1 IH2]. rewrite Hk, Hc, IH1, IH2. auto.
Qed.

(** X7: over any sequence of operations that neither take a raw value from
    the caller nor hand one out ([release()], construction from and
    [reset] to a value that is not null), and for every value [p] that is
    not null, the number of wrappers holding [p], plus the calls of
    [release] on [p], minus the calls of [add_ref] on [p], is the same at
    the end as at the start, whether the sequence ends normally or by an
    exception. *)
Theorem references_are_conserved :
  (forall (E : Type) (HD : HandleDeleter.t E)
          (os : list handle_op) (m : machine E) (p : Z),
     p <> HandleDeleter.null ->
     forallb keeps_handles os = true ->
     ends_with (run_handle_ops os m) (fun m' => balance p m' = balance p m))
  /\ (forall (E : Type) (GD : GenericDeleter.t E)
             (os : list pointer_op) (m : machine E) (p : Z),
        p <> nullptr ->
        forallb keeps_pointers os = true ->
        ends_with (run_pointer_ops os m)
          (fun m' => balance p m' = balance p m)).
Proof.
  split; intros E D os m p Hp Hos.
  - apply run_handle_ops_keep_balance; assumption.
  - apply run_pointer_ops_keep_balance; assumption.
Qed.

Lemma references_are_conserved_witness :
  ends_with
    (run_pointer_ops
       [PCopyCtor 1%positive; PCopyAssign 2%positive 1%positive;
        PMoveCtor 3%positive; PSwap 1%positive 4%positive;
        PDtor 1%positive; PAssignNullptr 2%positive]
       (two_wrappers 4096 8192 one_ref))
    (fun m' => balance 4096 m' = balance 4096 (two_wrappers 4096 8192 one_ref))
  /\ calls_made
       (run_pointer_ops
          [PCopyCtor 1%positive; PCopyAssign 2%positive 1%positive;
           PMoveCtor 3%positive; PSwap 1%positive 4%positive;
           PDtor 1%positive; PAssignNullptr 2%positive]
          (two_wrappers 4096 8192 one_ref))
     = [AddRef 4096; AddRef 4096; Release 8192; Release 4096; Release 4096].
Proof.
  split.
  - apply (proj2 references_are_conserved (Z -> Z) GLibDeleter).
    + discriminate.
    + reflexivity.
  - vm_compute. reflexivity.
Defined.

(** X8: the operations of the scalar handle wrapper never call [add_ref],
    and a sequence of operations on pointer wrappers that contains no copy
    construction and no copy assignment never calls it either. *)
Theorem only_copies_add_references :
  (forall (E : Type) (HD : HandleDeleter.t E)
          (os : list handle_op) (m : machine E),
     ends_with (run_handle_ops os m) (fun m' =>
       count is_add_ref (calls (log m')) = count is_add_ref (calls (log m))))
  /\ (forall (E : Type) (GD : GenericDeleter.t E)
             (os : list pointer_op) (m : machine E),
        forallb (fun o => negb (copies o)) os = true ->
        ends_with (run_pointer_ops os m) (fun m' =>
          count is_add_ref (calls (log m'))
          = count is_add_ref (calls (log m)))).
Proof.
  split; intros E D os m.
  - apply run_handle_ops_add_no_ref.
  - apply run_pointer_ops_add_no_ref.
Qed.

Lemma only_copies_add_references_witness :
  ends_with
    (run_pointer_ops
       [PCtor 4096; PMoveCtor 1%positive; PReset 2%positive 8192;
        PMoveAssign 1%positive 2%positive; PDtor 1%positive; PDtor 2%positive]
       (Machine ∅ [] one_ref))
    (fun m' => count is_add_ref (calls (log m')) = count is_add_ref (calls []))
  /\ calls_made
       (run_pointer_ops
          [PCtor 4096; PMoveCtor 1%positive; PReset 2%positive 8192;
           PMoveAssign 1%positive 2%positive; PDtor 1%positive; PDtor 2%positive]
          (Machine ∅ [] one_ref))
     = [Release 4096; Release 8192].
Proof.
  split.
  - apply (proj2 only_copies_add_references (Z -> Z) GLibDeleter
             _ (Machine ∅ [] one_ref)).
    reflexivity.
  - vm_compute. reflexivity.
Defined.

(** X9: exclusive ownership is kept and nothing is released twice.  Over
    any sequence of operations of an exclusive owner that stay among
    wrappers (no copies, no [release()], no raw value that is not null
    taken in), started with an empty log from a state in which at most one
    wrapper holds [p]: at most one wrapper holds [p] at the end, [p] has
    been released at most once, and it has been released exactly when no
    wrapper holds it any more. *)
Theorem exclusive_value_released_at_most_once :
  (forall (E : Type) (HD : HandleDeleter.t E)
          (os : list handle_op) (m : machine E) (p : Z),
     p <> HandleDeleter.null ->
     forallb keeps_handles os = true ->
     log m = [] ->
     holders p (heap m) <= 1 ->
     ends_with (run_handle_ops os m) (fun m' =>
       holders p (heap m') + Z.of_nat (count (releases p) (calls (log m')))
       = holders p (heap m)
       /\ 0 <= holders p (heap m') <= 1
       /\ (count (releases p) (calls (log m')) <= 1)%nat))
  /\ (forall (E : Type) (GD : GenericDeleter.t E)
             (os : list pointer_op) (m : machine E) (p : Z),
        p <> nullptr ->
        forallb moves_only os = true ->
        log m = [] ->
        holders p (heap m) <= 1 ->
        ends_with (run_pointer_ops os m) (fun m' =>
          holders p (heap m') + Z.of_nat (count (releases p) (calls (log m')))
          = holders p (heap m)
          /\ 0 <= holders p (heap m') <= 1
          /\ (count (releases p) (calls (log m')) <= 1)%nat)).
Proof.
  split; intros E D os m p Hp Hos Hlog Hone.
  - eapply ends_with_impl;
      [|apply ends_with_and;
         [apply (run_handle_ops_keep_balance p os m Hp Hos)
         |apply (run_handle_ops_add_no_ref os m)]].
    cbn beta. intros m' [Hbal Hadd]. unfold balance in Hbal.
    rewrite Hlog in Hbal, Hadd. cbn [calls map count] in Hbal, Hadd.
    pose proof (count_add_refs_le p (calls (log m'))).
    pose proof (holders_nonneg p (heap m')). lia.
  - apply forallb_moves_only in Hos as [Hkeep Hcopy].
    eapply ends_with_impl;
      [|apply ends_with_and;
         [apply (run_pointer_ops_keep_balance p os m Hp Hkeep)
         |apply (run_pointer_ops_add_no_ref os m Hcopy)]].
    cbn beta. intros m' [Hbal Hadd]. unfold balance in Hbal.
    rewrite Hlog in Hbal, Hadd. cbn [calls map count] in Hbal, Hadd.
    pose proof (count_add_refs_le p (calls (log m'))).
    pose proof (holders_nonneg p (heap m')). lia.
Qed.

Lemma exclusive_value_released_at_most_once_witness :
  ends_with
    (run_handle_ops
       [HMoveCtor 1%positive; HSwap 1%positive 3%positive;
        HMoveAssign 2%positive 1%positive; HDtor 2%positive;
        HReset 3%positive HandleDeleter.null]
       (two_wrappers 5 7 ([] : list Z)))
    (fun m' =>
       holders 5 (heap m') + Z.of_nat (count (releases 5) (calls (log m')))
       = holders 5 (heap (two_wrappers 5 7 ([] : list Z)))
       /\ 0 <= holders 5 (heap m') <= 1
       /\ (count (releases 5) (calls (log m')) <= 1)%nat)
  /\ calls_made
       (run_handle_ops
          [HMoveCtor 1%positive; HSwap 1%positive 3%positive;
           HMoveAssign 2%positive 1%positive; HDtor 2%positive;
           HReset 3%positive HandleDeleter.null]
          (two_wrappers 5 7 ([] : list Z)))
     = [Release 7; Release 5].
Proof.
  split.
  - apply (proj1 exclusive_value_released_at_most_once (list Z) POSIXFileDeleter).
    + discriminate.
    + reflexivity.
    + reflexivity.
    + vm_compute. discriminate.
  - vm_compute. reflexivity.
Defined.

(** ** The pointer casts and the generated hash *)

Lemma never_add_refs_null_snoc l c h :
  never_add_refs_null l -> c <> AddRef nullptr ->
  never_add_refs_null (l ++ [Event c h]).
Proof.
  intros Hl Hc. apply Forall_app. split; [exact Hl|].
  constructor; [exact Hc | constructor].
Qed.

Lemma add_ref_ne_null v :
  negb (v =? nullptr) = true -> AddRef v <> AddRef nullptr.
Proof.
  intros H Heq. injection Heq as ->. rewrite Z.eqb_refl in H. discriminate.
Qed.

Lemma release_ne_add_ref v : Release v <> AddRef nullptr.
Proof. discriminate. Qed.

Create HintDb refs.
#[local] Hint Resolve never_add_refs_null_snoc add_ref_ne_null
  release_ne_add_ref : refs.

Section Casts.
Context {E : Type} {GD : GenericDeleter.t E}.

Lemma run_pointer_op_never_adds_null (o : pointer_op) (m : machine E) :
  never_add_refs_null (log m) ->
  ends_with (run_pointer_op o m) (fun m' => never_add_refs_null (log m')).
Proof.
  intros Hm. unfold ends_with.
  destruct o; unfold run_pointer_op, ignore; unfold_members;
    split_run; simplify_eq; cbn [heap log ext fst snd final negb] in *;
    eauto 8 with refs.
Qed.

Lemma casts_never_add_null (static_cast : Z -> Z) (r : loc) (m : machine E) :
  never_add_refs_null (log m) ->
  noexcept_ends_with (std.static_pointer_cast static_cast r m)
    (fun m' => never_add_refs_null (log m'))
  /\ noexcept_ends_with (std.const_pointer_cast r m)
       (fun m' => never_add_refs_null (log m')).
Proof.
  intros Hm.
  split; unfold noexcept_ends_with, std.static_pointer_cast,
    std.const_pointer_cast, noexcept_body; unfold_members;
    split_run; simplify_eq; cbn [heap log ext fst snd final negb] in *;
    eauto 8 with refs.
Qed.

(** X11: [static_pointer_cast] and [const_pointer_cast] leave their
    argument as it is and make a new shared pointer wrapper holding the
    converted address; [const_pointer_cast] is [static_pointer_cast] with
    the conversion that keeps the address.  When the converted address is
    null nothing is called; when it is not, [add_ref] is called on it
    exactly once, so that the new holder is matched by one added
    reference.  The casts do not throw: if [add_ref] throws, the program
    terminates after that one call, with no wrapper made and nothing
    released.  When [add_ref] returns, or the pointer is null, a
    [const_pointer_cast] makes the calls and yields the store of a copy
    construction; when [add_ref] throws they differ, the copy construction
    throwing after a further [release]. *)
Theorem pointer_cast_adds_one_reference
  (static_cast : Z -> Z) (m : machine E) (r : loc) (p : Z) :
  heap m !! r = Some p ->
  (static_cast p = nullptr ->
     exists (b : loc) (m' : machine E),
       std.static_pointer_cast static_cast r m = Finishes b m' /\
       heap m !! b = None /\
       heap m' = <[b := nullptr]> (heap m) /\
       log m' = log m /\ ext m' = ext m)
  /\ (static_cast p <> nullptr ->
      fst (GenericDeleter.add_ref (static_cast p) (ext m)) = Normal ->
        exists (b : loc) (m' : machine E),
          std.static_pointer_cast static_cast r m = Finishes b m' /\
          heap m !! b = None /\
          heap m' = <[b := static_cast p]> (heap m) /\
          calls (log m') = calls (log m) ++ [AddRef (static_cast p)] /\
          ext m' = snd (GenericDeleter.add_ref (static_cast p) (ext m)) /\
          balance (static_cast p) m' = balance (static_cast p) m)
  /\ (static_cast p <> nullptr ->
      fst (GenericDeleter.add_ref (static_cast p) (ext m)) = Thrown ->
        exists m' : machine E,
          std.static_pointer_cast static_cast r m = Terminates m' /\
          heap m' = heap m /\
          calls (log m') = calls (log m) ++ [AddRef (static_cast p)])
  /\ (p = nullptr \/ fst (GenericDeleter.add_ref p (ext m)) = Normal ->
        exists (b : loc) (m1 m2 : machine E),
          std.const_pointer_cast r m = Finishes b m1 /\
          generic_shared_ptr.copy_ctor r m = Returns b m2 /\
          heap m1 = heap m2 /\ calls (log m1) = calls (log m2) /\
          ext m1 = ext m2)
  /\ (p <> nullptr -> fst (GenericDeleter.add_ref p (ext m)) = Thrown ->
        exists m1 m2 : machine E,
          std.const_pointer_cast r m = Terminates m1 /\
          heap m1 = heap m /\
          calls (log m1) = calls (log m) ++ [AddRef p] /\
          generic_shared_ptr.copy_ctor r m = Throws m2 /\
          heap m2 = heap m /\
          calls (log m2) = calls (log m) ++ [AddRef p; Release p])
  /\ std.const_pointer_cast r m = std.static_pointer_cast (fun a => a) r m.
Proof.
  intros Hr. unfold std.static_pointer_cast, std.const_pointer_cast,
    noexcept_body.
  split; [|split; [|split; [|split; [|split; [|reflexivity]]]]].
  5: { intros Hp Hthrown. run.
       eexists _, _. split; [reflexivity|]. split; [reflexivity|].
       split; [cbn [heap log ext]; rewrite calls_app; reflexivity|].
       split; [reflexivity|]. cbn [heap log ext]. split; [store_eq|].
       rewrite !calls_app, <- app_assoc. reflexivity. }
  - intros Hq. exec. rewrite Hq. cbn.
    eexists _, _. split; [reflexivity|]. cbn [heap log ext].
    auto using alloc_fresh.
  - intros Hq Hok. exec.
    destruct (Z.eqb_spec (static_cast p) nullptr); [contradiction|].
    cbn [negb]. lookups.
    eexists _, _. split; [reflexivity|]. cbn [heap log ext].
    rewrite calls_app. repeat split; auto using alloc_fresh.
    account.
  - intros Hq Hthrown. exec.
    destruct (Z.eqb_spec (static_cast p) nullptr); [contradiction|].
    cbn [negb]. lookups.
    eexists. split; [reflexivity|]. cbn [heap log ext].
    rewrite calls_app. auto.
  - intros [-> | Hok]; run.
    all: eexists _, _, _; split; [reflexivity|]; split; [reflexivity|].
    all: cbn [heap log ext]; rewrite ?calls_app; auto.
Qed.

(** The hash generated for an alias class hashes what [get] returns. *)
Lemma hash_alias_by_raw_value :
  hash_by_raw_value (E := E) generic_unique_ptr.operator_eq std.hash_alias
  /\ hash_by_raw_value (E := E) generic_shared_ptr.operator_eq std.hash_alias.
Proof.
  split; intros std_hash m a b x y Ha Hb; unfold std.hash_alias;
    run; repeat split; congruence.
Qed.

End Casts.

Lemma pointer_cast_adds_one_reference_witness :
  (exists (b : loc) (m' : machine (Z -> Z)),
     std.static_pointer_cast (fun a => a + 16) 1%positive
       (two_wrappers 4096 nullptr one_ref) = Finishes b m' /\
     heap (two_wrappers 4096 nullptr one_ref) !! b = None /\
     heap m' = <[b := 4096 + 16]> (heap (two_wrappers 4096 nullptr one_ref)) /\
     calls (log m') = calls [] ++ [AddRef (4096 + 16)] /\
     ext m' = snd (GenericDeleter.add_ref (4096 + 16) one_ref) /\
     balance (4096 + 16) m'
     = balance (4096 + 16) (two_wrappers 4096 nullptr one_ref))
  /\ (exists m1 m2 : machine (Z -> Z),
        std.const_pointer_cast (GD := GLibDeleter_limit 1) 1%positive
          (two_wrappers 4096 nullptr one_ref) = Terminates m1 /\
        heap m1 = heap (two_wrappers 4096 nullptr one_ref) /\
        calls (log m1) = calls [] ++ [AddRef 4096] /\
        generic_shared_ptr.copy_ctor (GD := GLibDeleter_limit 1) 1%positive
          (two_wrappers 4096 nullptr one_ref) = Throws m2 /\
        heap m2 = heap (two_wrappers 4096 nullptr one_ref) /\
        calls (log m2) = calls [] ++ [AddRef 4096; Release 4096]).
Proof.
  split.
  - apply (proj1 (proj2 (pointer_cast_adds_one_reference (fun a => a + 16)
             (two_wrappers 4096 nullptr one_ref) 1%positive 4096 eq_refl))).
    + discriminate.
    + reflexivity.
  - apply (proj1 (proj2 (proj2 (proj2 (proj2
             (pointer_cast_adds_one_reference (GD := GLibDeleter_limit 1)
                (fun a => a)
                (two_wrappers 4096 nullptr one_ref) 1%positive 4096 eq_refl)))))).
    + discriminate.
    + reflexivity.
Defined.

(** X10: [add_ref] is never called on the null pointer, neither by a
    sequence of operations on pointer wrappers nor by the casts: if no
    earlier call was made on null, none is when they end. *)
Theorem add_ref_never_called_on_null :
  (forall (E : Type) (GD : GenericDeleter.t E)
          (os : list pointer_op) (m : machine E),
     never_add_refs_null (log m) ->
     ends_with (run_pointer_ops os m)
       (fun m' => never_add_refs_null (log m')))
  /\ (forall (E : Type) (GD : GenericDeleter.t E)
             (static_cast : Z -> Z) (r : loc) (m : machine E),
        never_add_refs_null (log m) ->
        noexcept_ends_with (std.static_pointer_cast static_cast r m)
          (fun m' => never_add_refs_null (log m'))
        /\ noexcept_ends_with (std.const_pointer_cast r m)
             (fun m' => never_add_refs_null (log m'))).
Proof.
  split.
  - intros E D os m Hm.
    apply (run_all_preserves (fun m' => never_add_refs_null (log m')));
      [|exact Hm].
    apply Forall_map, Forall_forall. intros o _ m0.
    apply run_pointer_op_never_adds_null.
  - intros E D sc r m Hm. apply casts_never_add_null. exact Hm.
Qed.

Lemma add_ref_never_called_on_null_witness :
  ends_with
    (run_pointer_ops
       [PCtorDefault; PCopyCtor 3%positive; PCopyAssign 3%positive 2%positive;
        PCopyCtor 1%positive; PCopyAssign 2%positive 1%positive]
       (two_wrappers 4096 nullptr one_ref))
    (fun m' => never_add_refs_null (log m'))
  /\ calls_made
       (run_pointer_ops
          [PCtorDefault; PCopyCtor 3%positive; PCopyAssign 3%positive 2%positive;
           PCopyCtor 1%positive; PCopyAssign 2%positive 1%positive]
          (two_wrappers 4096 nullptr one_ref))
     = [AddRef 4096; AddRef 4096].
Proof.
  split.
  - apply (proj1 add_ref_never_called_on_null (Z -> Z) GLibDeleter).
    constructor.
  - vm_compute. reflexivity.
Defined.

(** X12: under the [std::hash] that [UTILS_DEF_SMART_PTR_STD_FUNCS]
    generates for an alias class, the hash of a pointer wrapper is the
    standard hash of [get()], so that wrappers that compare equal have
    equal hashes. *)
Theorem generated_hash_by_raw_value :
  forall (E : Type) (GD : GenericDeleter.t E),
    hash_by_raw_value (E := E) generic_unique_ptr.operator_eq std.hash_alias
    /\ hash_by_raw_value (E := E) generic_shared_ptr.operator_eq std.hash_alias.
Proof. intros E GD. apply hash_alias_by_raw_value. Qed.

Lemma generated_hash_by_raw_value_witness :
  std.hash_alias (fun a => a mod 64) 1%positive (two_wrappers 4096 4096 one_ref)
    = Returns (4096 mod 64) (two_wrappers 4096 4096 one_ref)
  /\ std.hash_alias (fun a => a mod 64) 2%positive (two_wrappers 4096 4096 one_ref)
     = Returns (4096 mod 64) (two_wrappers 4096 4096 one_ref)
  /\ (generic_unique_ptr.operator_eq 1%positive 2%positive
        (two_wrappers 4096 4096 one_ref)
      = Returns true (two_wrappers 4096 4096 one_ref) ->
      4096 mod 64 = 4096 mod 64).
Proof.
  apply (proj1 (generated_hash_by_raw_value (Z -> Z) GLibDeleter)
           (fun a => a mod 64) (two_wrappers 4096 4096 one_ref)
           1%positive 2%positive 4096 4096).
  - reflexivity.
  - reflexivity.
Defined.
